(** * mcp-shell-async: the asynchronous job engine of [mcp-shell-cmd.js]

    A shallow embedding of the job engine (command guard, job records,
    registry, stream and exit handlers, poll, kill, list, cleanup, reaper and
    the [start_command] dispatch) together with the properties the design
    document states about it.

    Conventions of the embedding.
    - A JavaScript string is a [string]; every [ascii] is one code unit in
      the range 0..255 (the Latin-1 part of UTF-16).  Code units above 255
      are outside the model, and with them the white space beyond code
      unit 160 and the Kelvin sign, which lower-cases to k.
    - A JavaScript number that holds a counter, a line index or a
      millisecond timestamp is a [Z].
    - [Date.now()] is not a function of the program state: every call site
      receives the value it reads as an argument, in call order.
    - The [jobs] Map is a [gmap string Job]; the closures that the source
      attaches to a child process capture the job object, here they are
      functions [Job -> Job] that the registry applies at the job's id.
    - The two script versions in [src/mcp-shell-cmd.js] share every function
      modelled here verbatim, up to the extra [shell] argument of the second
      one, which only selects the interpreter that is spawned. *)

From Stdlib Require Import ZArith String Ascii List Bool Lia.
From stdpp Require Import base option list gmap strings fin_maps pretty.
Import ListNotations.

Local Open Scope string_scope.
Local Open Scope Z_scope.

(** ** JavaScript string primitives used by the engine *)

Module Js.

(** The code unit of a character. *)
Definition code (c : ascii) : Z := Z.of_N (N_of_ascii c).

Definition between (lo hi : Z) (c : ascii) : bool :=
  (lo <=? code c) && (code c <=? hi).

(** [\s] of a regular expression and the characters [trim] strips:
    TAB, LF, VT, FF, CR, SPACE and NBSP (within the first 256 code units). *)
Definition isWhiteSpace (c : ascii) : bool :=
  between 9 13 c || (code c =? 32) || (code c =? 160).

(** [\w]: ASCII letters, digits and the underscore. *)
Definition isWordChar (c : ascii) : bool :=
  between 97 122 c || between 65 90 c || between 48 57 c || (code c =? 95).

Definition shift (d : Z) (c : ascii) : ascii :=
  ascii_of_N (Z.to_N (code c + d)).

(** [String.prototype.toLowerCase] on one code unit: A-Z and the Latin-1
    capitals (all of 192..222 but the multiplication sign 215) move up
    by 32. *)
Definition toLowerCaseChar (c : ascii) : ascii :=
  if between 65 90 c || (between 192 222 c && negb (code c =? 215))
  then shift 32 c else c.

(** [Canonicalize] of a case-insensitive, non-unicode regular expression:
    the upper-case form of the code unit when that is again one code unit.
    In the modelled range a-z and 224..254 (but the division sign 247)
    move down by 32; the upper-case forms of 181, 223 and 255 lie outside
    the range or are not one code unit, and differ from every ASCII
    character, so these stay. *)
Definition canonicalize (c : ascii) : ascii :=
  if between 97 122 c || (between 224 254 c && negb (code c =? 247))
  then shift (-32) c else c.

Fixpoint toLowerCase (s : string) : string :=
  match s with
  | EmptyString => EmptyString
  | String c s' => String (toLowerCaseChar c) (toLowerCase s')
  end.

Fixpoint trimStart (s : string) : string :=
  match s with
  | EmptyString => EmptyString
  | String c s' => if isWhiteSpace c then trimStart s' else s
  end.

(** [trimEnd] keeps a character when it is not white space or when
    something that is kept follows it. *)
Fixpoint trimEnd (s : string) : string :=
  match s with
  | EmptyString => EmptyString
  | String c s' =>
      match trimEnd s' with
      | EmptyString => if isWhiteSpace c then EmptyString else String c EmptyString
      | t => String c t
      end
  end.

Definition trim (s : string) : string := trimEnd (trimStart s).

(** Put a character in front of the first segment of a split. *)
Definition cons_head (c : ascii) (l : list string) : list string :=
  match l with
  | [] => [String c EmptyString]
  | x :: xs => String c x :: xs
  end.

(** [s.split(sep)] for a one-character separator. *)
Fixpoint split (sep : ascii) (s : string) : list string :=
  match s with
  | EmptyString => [EmptyString]
  | String c s' =>
      if Ascii.eqb c sep then EmptyString :: split sep s'
      else cons_head c (split sep s')
  end.

(** [s.split(/\s+/)]: a separator is a maximal run of white space. *)
Fixpoint split_ws (s : string) : list string :=
  match s with
  | EmptyString => [EmptyString]
  | String c s' =>
      if isWhiteSpace c then
        match s' with
        | String c' _ => if isWhiteSpace c' then split_ws s' else EmptyString :: split_ws s'
        | EmptyString => EmptyString :: split_ws s'
        end
      else cons_head c (split_ws s')
  end.

(** [l.join(sep)]. *)
Fixpoint join (sep : string) (l : list string) : string :=
  match l with
  | [] => EmptyString
  | [x] => x
  | x :: xs => x +:+ sep +:+ join sep xs
  end.

(** [l.slice(start)] for an integer [start]: a negative start counts from
    the end, and the start is clamped to the array. *)
Definition slice {A} (start : Z) (l : list A) : list A :=
  let len := Z.of_nat (length l) in
  let from := if start <? 0 then Z.max (len + start) 0 else Z.min start len in
  drop (Z.to_nat from) l.

(** [l.includes(x)] on an array of strings. *)
Definition includes (l : list string) (x : string) : bool :=
  existsb (String.eqb x) l.

(** [l[0]]; every split has a first element, the default is never used. *)
Definition first (l : list string) : string := hd EmptyString l.

(** *** The fragment of regular expressions the guard uses

    Matching is the backtracking search of the language definition, in
    continuation-passing style: [k] receives the rest of the input and
    the capture so far and says whether the rest of the pattern matches. *)

Inductive regex :=
| RChar (p : ascii -> bool)     (* one character of a class *)
| RPlus (p : ascii -> bool)     (* class+, greedy *)
| ROpt (r : regex)              (* r?, greedy *)
| RGroup (r : regex)            (* ( r ), capture group 1 *)
| RSeq (r1 r2 : regex).

(** The prefix of [s] that was consumed when [rest] is what remains. *)
Definition consumed (s rest : string) : string :=
  substring 0 (String.length s - String.length rest)%nat s.

Section Matcher.
Context {R : Type}.

(** class*, greedy: take as many characters as possible, give back one
    at a time while the continuation fails. *)
Fixpoint star (p : ascii -> bool) (s : string) (k : string -> option R) : option R :=
  match s with
  | EmptyString => k s
  | String c s' =>
      if p c then
        match star p s' k with
        | Some r => Some r
        | None => k s
        end
      else k s
  end.

Fixpoint rmatch (r : regex) (s : string) (cap : option string)
    (k : string -> option string -> option R) : option R :=
  match r with
  | RChar p =>
      match s with
      | String c s' => if p c then k s' cap else None
      | EmptyString => None
      end
  | RPlus p =>
      match s with
      | String c s' => if p c then star p s' (fun rest => k rest cap) else None
      | EmptyString => None
      end
  | ROpt r1 =>
      match rmatch r1 s cap k with
      | Some x => Some x
      | None => k s cap
      end
  | RGroup r1 => rmatch r1 s cap (fun rest _ => k rest (Some (consumed s rest)))
  | RSeq r1 r2 => rmatch r1 s cap (fun rest cap' => rmatch r2 rest cap' k)
  end.
End Matcher.

(** [s.match(r)] without the global flag: the first start index at which
    the pattern matches; the result is the match's capture group 1
    ([None] inside when the group took no part). *)
Fixpoint exec (r : regex) (s : string) : option (option string) :=
  match rmatch r s None (fun _ cap => Some cap) with
  | Some cap => Some cap
  | None =>
      match s with
      | EmptyString => None
      | String _ s' => exec r s'
      end
  end.

(** A pattern character under the [i] flag. *)
Definition ci (c : ascii) : ascii -> bool :=
  fun x => Ascii.eqb (canonicalize x) (canonicalize c).

Definition quote (x : ascii) : bool := (code x =? 34) || (code x =? 39).

End Js.

(** ** Command guard *)

Definition BLACKLISTED : list string :=
  ["rm"; "rmdir"; "del"; "format"; "mkfs"; "dd"; "chmod"; "chown"; "sudo"; "su";
   "shutdown"; "reboot"].

(** The pattern of the guard: c, m, d (any case), white space, a slash, c
    (any case), white space, at most one double or single quote, and group 1,
    a run of word characters: cmd\s+\/c\s+[quotes]?(\w+) with flag i. *)
Definition wrapper_re : Js.regex :=
  Js.RSeq (Js.RChar (Js.ci "c"))
 (Js.RSeq (Js.RChar (Js.ci "m"))
 (Js.RSeq (Js.RChar (Js.ci "d"))
 (Js.RSeq (Js.RPlus Js.isWhiteSpace)
 (Js.RSeq (Js.RChar (Js.ci "/"))
 (Js.RSeq (Js.RChar (Js.ci "c"))
 (Js.RSeq (Js.RPlus Js.isWhiteSpace)
 (Js.RSeq (Js.ROpt (Js.RChar Js.quote))
          (Js.RGroup (Js.RPlus Js.isWordChar))))))))).

(** [validateCommand(cmd)].  When the pattern matches, group 1 took part in
    the match (see [exec_wrapper_group]); the branch for an undefined group,
    where the source would throw, is never taken. *)
Definition validateCommand (cmd : string) : bool :=
  let base := Js.toLowerCase (Js.first (Js.split_ws (Js.trim cmd))) in
  if String.eqb base "cmd" then
    match Js.exec wrapper_re cmd with
    | Some (Some w) => negb (Js.includes BLACKLISTED (Js.toLowerCase w))
    | Some None => false
    | None => negb (Js.includes BLACKLISTED base)
    end
  else negb (Js.includes BLACKLISTED base).

(** The tails of the pattern: the group, the group after the optional
    quote, and the flag with what follows it. *)
Definition re_word : Js.regex := Js.RGroup (Js.RPlus Js.isWordChar).
Definition re_quoted : Js.regex := Js.RSeq (Js.ROpt (Js.RChar Js.quote)) re_word.
Definition re_flag : Js.regex :=
  Js.RSeq (Js.RChar (Js.ci "/"))
 (Js.RSeq (Js.RChar (Js.ci "c"))
 (Js.RSeq (Js.RPlus Js.isWhiteSpace) re_quoted)).

(** The continuation at the end of the pattern: the match succeeds with the
    capture it has. *)
Definition accept : string -> option string -> option (option string) :=
  fun _ cap => Some cap.

(** *** The guard as the design document words it

    These definitions follow the words of the document, not the source, and
    serve to compare the two.  The first token of a string is its first
    maximal run of characters that are not white space.  The document
    inspects the first token, lower-cased; when that is the wrapper cmd and
    the next token is the flag /c, it inspects the first token of the
    wrapped command, the third token. *)

Fixpoint take_token (s : string) : string :=
  match s with
  | EmptyString => EmptyString
  | String c s' => if Js.isWhiteSpace c then EmptyString else String c (take_token s')
  end.

Fixpoint drop_token (s : string) : string :=
  match s with
  | EmptyString => EmptyString
  | String c s' => if Js.isWhiteSpace c then s else drop_token s'
  end.

Definition first_token (s : string) : string := take_token (Js.trimStart s).
Definition after_first_token (s : string) : string := drop_token (Js.trimStart s).

Definition stated_inspected (cmd : string) : string :=
  let t1 := Js.toLowerCase (first_token cmd) in
  let rest1 := after_first_token cmd in
  let t2 := Js.toLowerCase (first_token rest1) in
  if String.eqb t1 "cmd" && String.eqb t2 "/c"
  then Js.toLowerCase (first_token (after_first_token rest1))
  else t1.

Definition stated_validate (cmd : string) : bool :=
  negb (Js.includes BLACKLISTED (stated_inspected cmd)).

(** A string of word characters only. *)
Fixpoint all_word (s : string) : bool :=
  match s with
  | EmptyString => true
  | String c s' => Js.isWordChar c && all_word s'
  end.

(** A string that is empty or starts with white space: what can follow a
    token. *)
Definition at_token_end (s : string) : Prop :=
  match s with
  | EmptyString => True
  | String c _ => Js.isWhiteSpace c = true
  end.

(** *** The guard's pattern read as a scanner

    What the pattern finds, written without a matcher: at some place of the
    command stand c, m, d in any case, white space, a slash and c in any
    case, white space, at most one quote, and then a word character; the
    word is the longest run of word characters from there, and the place is
    the first one that fits. *)

Fixpoint take_word (s : string) : string :=
  match s with
  | EmptyString => EmptyString
  | String c s' => if Js.isWordChar c then String c (take_word s') else EmptyString
  end.

Fixpoint drop_word (s : string) : string :=
  match s with
  | EmptyString => EmptyString
  | String c s' => if Js.isWordChar c then drop_word s' else s
  end.

Definition word_at (s : string) : option string :=
  match s with
  | String c s' => if Js.isWordChar c then Some (String c (take_word s')) else None
  | EmptyString => None
  end.

Definition quoted_word_at (s : string) : option string :=
  match s with
  | String q s' => if Js.quote q then word_at s' else word_at s
  | EmptyString => None
  end.

(** White space, at least one character of it, then [next]. *)
Definition after_spaces {A} (next : string -> option A) (s : string) : option A :=
  match s with
  | String c s' => if Js.isWhiteSpace c then next (Js.trimStart s') else None
  | EmptyString => None
  end.

Definition flag_at (s : string) : option string :=
  match s with
  | String a (String b s') =>
      if Js.ci "/" a && Js.ci "c" b then after_spaces quoted_word_at s' else None
  | _ => None
  end.

Definition wrapper_at (s : string) : option string :=
  match s with
  | String a (String b (String c s')) =>
      if Js.ci "c" a && Js.ci "m" b && Js.ci "d" c then after_spaces flag_at s' else None
  | _ => None
  end.

Fixpoint wrapped_word (s : string) : option string :=
  match wrapper_at s with
  | Some w => Some w
  | None =>
      match s with
      | EmptyString => None
      | String _ s' => wrapped_word s'
      end
  end.

(** The token the guard looks up in the denylist. *)
Definition inspected (cmd : string) : string :=
  let t1 := Js.toLowerCase (first_token cmd) in
  if String.eqb t1 "cmd" then
    match wrapped_word cmd with
    | Some w => Js.toLowerCase w
    | None => t1
    end
  else t1.

(** ** Job records *)

Inductive Status := running | done | error | killed.

Inductive Signal := SIGTERM | SIGKILL.

(** What the engine knows of a child process: how it was spawned and the
    signals [proc.kill] has sent to it so far, oldest first. *)
Record ChildProcess := {
  spawnfile : string;
  spawnargs : list string;
  windowsHide : bool;
  signals : list Signal
}.

Record Job := {
  id : string;
  command : string;
  status : Status;
  stdout : string;
  stderr : string;
  exitCode : option Z;          (* null, or the code the close event reported *)
  startTime : Z;
  lastOutputTime : Z;
  outputLines : Z;
  proc : option ChildProcess
}.

Definition LF : ascii := ascii_of_nat 10.
Definition nl : string := String LF EmptyString.

Definition status_eqb (a b : Status) : bool :=
  match a, b with
  | running, running | done, done | error, error | killed, killed => true
  | _, _ => false
  end.

Definition send (sig : Signal) (p : ChildProcess) : ChildProcess :=
  {| spawnfile := spawnfile p; spawnargs := spawnargs p;
     windowsHide := windowsHide p; signals := signals p ++ [sig] |}.

(** [spawn] of [createJob]: [cmd /c command] on Windows, [/bin/bash -c
    command] elsewhere. *)
Definition spawn (isWindows : bool) (command : string) : ChildProcess :=
  if isWindows
  then {| spawnfile := "cmd"; spawnargs := ["/c"; command];
          windowsHide := true; signals := [] |}
  else {| spawnfile := "/bin/bash"; spawnargs := ["-c"; command];
          windowsHide := false; signals := [] |}.

(** The job object [createJob] builds, after [job.proc] is assigned. *)
Definition new_job (isWindows : bool) (jid : string) (t_start t_last : Z)
    (cmd : string) : Job :=
  {| id := jid; command := cmd; status := running;
     stdout := EmptyString; stderr := EmptyString; exitCode := None;
     startTime := t_start; lastOutputTime := t_last; outputLines := 0;
     proc := Some (spawn isWindows cmd) |}.

(** *** The listeners [createJob] attaches, as functions on the job *)

(** [proc.stdout.on('data', ...)]; [text] is the decoded chunk, [now] the
    clock reading. *)
Definition on_stdout_data (now : Z) (text : string) (job : Job) : Job :=
  {| id := id job; command := command job; status := status job;
     stdout := stdout job +:+ text;
     stderr := stderr job; exitCode := exitCode job;
     startTime := startTime job;
     lastOutputTime := now;
     outputLines := outputLines job + (Z.of_nat (length (Js.split LF text)) - 1);
     proc := proc job |}.

(** [proc.stderr.on('data', ...)]. *)
Definition on_stderr_data (now : Z) (text : string) (job : Job) : Job :=
  {| id := id job; command := command job; status := status job;
     stdout := stdout job;
     stderr := stderr job +:+ text;
     exitCode := exitCode job; startTime := startTime job;
     lastOutputTime := now;
     outputLines := outputLines job; proc := proc job |}.

(** [proc.on('close', ...)]; [code] is null when a signal ended the
    process. *)
Definition on_close (code : option Z) (job : Job) : Job :=
  {| id := id job; command := command job;
     status := done;
     stdout := stdout job; stderr := stderr job;
     exitCode := code;
     startTime := startTime job; lastOutputTime := lastOutputTime job;
     outputLines := outputLines job;
     proc := None |}.

(** [proc.on('error', ...)]. *)
Definition on_error (message : string) (job : Job) : Job :=
  {| id := id job; command := command job;
     status := error;
     stdout := stdout job;
     stderr := stderr job +:+ nl +:+ "Process error: " +:+ message;
     exitCode := exitCode job;
     startTime := startTime job; lastOutputTime := lastOutputTime job;
     outputLines := outputLines job;
     proc := None |}.

Definition set_proc (p : option ChildProcess) (job : Job) : Job :=
  {| id := id job; command := command job; status := status job;
     stdout := stdout job; stderr := stderr job; exitCode := exitCode job;
     startTime := startTime job; lastOutputTime := lastOutputTime job;
     outputLines := outputLines job; proc := p |}.

Definition set_status (s : Status) (job : Job) : Job :=
  {| id := id job; command := command job; status := s;
     stdout := stdout job; stderr := stderr job; exitCode := exitCode job;
     startTime := startTime job; lastOutputTime := lastOutputTime job;
     outputLines := outputLines job; proc := proc job |}.

(** [if (job.proc) job.proc.kill(sig)]. *)
Definition signal_if_alive (sig : Signal) (job : Job) : Job :=
  match proc job with
  | Some p => set_proc (Some (send sig p)) job
  | None => job
  end.

(** The body of [killJob] once the job is found: SIGTERM to a live process,
    then [job.status = 'killed'] whatever the status was. *)
Definition kill_job (job : Job) : Job :=
  set_status killed (signal_if_alive SIGTERM job).

(** The callback [killJob] hands to [setTimeout]. *)
Definition on_kill_timeout (job : Job) : Job := signal_if_alive SIGKILL job.

(** ** The module state: registry, counter, pending timers *)

Record World := {
  jobs : gmap string Job;
  jobCounter : Z;
  timers : list (string * Z)    (* job id and delay of each pending [setTimeout] *)
}.

Definition with_jobs (m : gmap string Job) (w : World) : World :=
  {| jobs := m; jobCounter := jobCounter w; timers := timers w |}.

Definition empty_world : World :=
  {| jobs := ∅; jobCounter := 0; timers := [] |}.

(** The template literal of [createJob]: job_<counter>_<time>. *)
Definition job_id (counter t : Z) : string :=
  "job_" +:+ pretty counter +:+ "_" +:+ pretty t.

(** [createJob(command)] when [spawn] returns a child process with its
    streams; the three readings of the clock are [t_id], [t_start] and
    [t_last].  The case in which [spawn] throws is [createJob_throwing]. *)
Definition createJob (isWindows : bool) (t_id t_start t_last : Z)
    (cmd : string) (w : World) : string * World :=
  let counter := jobCounter w + 1 in
  let jid := job_id counter t_id in
  let job := new_job isWindows jid t_start t_last cmd in
  (jid, {| jobs := <[jid := job]> (jobs w); jobCounter := counter;
           timers := timers w |}).

(** *** pollJob *)

Record PollInfo := {
  p_id : string;
  p_status : Status;
  p_exitCode : option Z;
  elapsedMs : Z;
  idleSinceMs : Z;
  totalLines : Z;
  fromLine : Z;
  output : string;
  p_stderr : string;
  isStalled : bool
}.

Inductive PollResult :=
| PollError (message : string)
| PollOk (info : PollInfo).

Definition not_found (jid : string) : string := "Job not found: " +:+ jid.

(** The object [pollJob] returns for a job that exists; [t_elapsed] and
    [t_idle] are the two readings of the clock. *)
Definition poll_view (t_elapsed t_idle : Z) (from : Z) (job : Job) : PollInfo :=
  let lines := Js.split LF (stdout job) in
  let newOutput := Js.join nl (Js.slice from lines) in
  let elapsed := t_elapsed - startTime job in
  let idleTime := t_idle - lastOutputTime job in
  {| p_id := id job;
     p_status := status job;
     p_exitCode := exitCode job;
     elapsedMs := elapsed;
     idleSinceMs := idleTime;
     totalLines := Z.of_nat (length lines);
     fromLine := from;
     output := newOutput;
     p_stderr := stderr job;
     isStalled := (30000 <? idleTime) && status_eqb (status job) running |}.

(** [pollJob(id, fromLine)]: the result and the module state afterwards. *)
Definition pollJob (t_elapsed t_idle : Z) (jid : string) (from : Z)
    (w : World) : PollResult * World :=
  match jobs w !! jid with
  | None => (PollError (not_found jid), w)
  | Some job => (PollOk (poll_view t_elapsed t_idle from job), w)
  end.

(** *** killJob *)

Inductive KillResult :=
| KillError (message : string)
| KillOk (jid : string).           (* { success: true, id } *)

Definition killJob (jid : string) (w : World) : KillResult * World :=
  match jobs w !! jid with
  | None => (KillError (not_found jid), w)
  | Some job =>
      (KillOk jid,
       {| jobs := <[jid := kill_job job]> (jobs w);
          jobCounter := jobCounter w;
          timers := match proc job with
                    | Some _ => timers w ++ [(jid, 1000)]
                    | None => timers w
                    end |})
  end.

(** *** listJobs *)

Record JobSummary := {
  s_id : string;
  s_command : string;
  s_status : Status;
  s_elapsedMs : Z;
  s_outputLines : Z
}.

(** One entry per job; [clock i] is what the clock reads in the [i]-th turn
    of the loop.  The order of the entries is that of [map_to_list], not
    the insertion order of the Map; [summaries] further down is the same
    loop for any given order of the entries. *)
Definition listJobs (clock : nat -> Z) (w : World) : list JobSummary * World :=
  (imap (fun i '(jid, job) =>
           {| s_id := jid;
              s_command := substring 0 100 (command job);
              s_status := status job;
              s_elapsedMs := clock i - startTime job;
              s_outputLines := outputLines job |})
        (map_to_list (jobs w)), w).

(** *** cleanupJob *)

Inductive CleanupResult :=
| CleanupOk                          (* { success: true } *)
| CleanupError (message : string).

Definition cleanup_message : string := "Job still running or not found".

Definition cleanupJob (jid : string) (w : World) : CleanupResult * World :=
  match jobs w !! jid with
  | Some job =>
      if negb (status_eqb (status job) running)
      then (CleanupOk, with_jobs (delete jid (jobs w)) w)
      else (CleanupError cleanup_message, w)
  | None => (CleanupError cleanup_message, w)
  end.

(** *** The reaper, the body of the [setInterval] callback *)

Definition expired (now : Z) (job : Job) : bool :=
  negb (status_eqb (status job) running) && (300000 <? now - startTime job).

Definition reaper (now : Z) (w : World) : World :=
  with_jobs
    (map_fold (fun jid job acc => if expired now job then delete jid acc else acc)
              (jobs w) (jobs w))
    w.

(** *** The tool calls of [handleRequest] that drive the engine *)

Inductive ToolCall :=
| start_command (cmd : string)
| poll_command (job_id : string) (from_line : option Z)
| kill_command (job_id : string)
| list_jobs.

Inductive ToolResult :=
| Blacklisted                        (* the text Error: Command blacklisted *)
| Started (job_id : string)          (* { job_id, status: 'started' } *)
| Polled (r : PollResult)
| Killed (r : KillResult)
| Listed (l : list JobSummary).

(** The [tools/call] branch of [handleRequest]; [clock k] is the [k]-th
    reading of the clock during the request. *)
Definition handleToolCall (isWindows : bool) (clock : nat -> Z)
    (call : ToolCall) (w : World) : ToolResult * World :=
  match call with
  | start_command cmd =>
      if negb (validateCommand cmd) then (Blacklisted, w)
      else
        let '(jobId, w') :=
          createJob isWindows (clock 0%nat) (clock 1%nat) (clock 2%nat) cmd w in
        (Started jobId, w')
  | poll_command job_id from_line =>
      let '(r, w') :=
        pollJob (clock 0%nat) (clock 1%nat) job_id (default 0 from_line) w in
      (Polled r, w')
  | kill_command job_id =>
      let '(r, w') := killJob job_id w in (Killed r, w')
  | list_jobs =>
      let '(r, w') := listJobs clock w in (Listed r, w')
  end.

(** ** Everything that can happen to one job after it was created *)

Inductive JobEvent :=
| StdoutData (now : Z) (text : string)
| StderrData (now : Z) (text : string)
| Close (code : option Z)
| ProcError (message : string)
| Kill
| KillTimeout.

Definition job_step (e : JobEvent) (job : Job) : Job :=
  match e with
  | StdoutData now text => on_stdout_data now text job
  | StderrData now text => on_stderr_data now text job
  | Close code => on_close code job
  | ProcError message => on_error message job
  | Kill => kill_job job
  | KillTimeout => on_kill_timeout job
  end.

(** The job after a sequence of events, first event first. *)
Definition job_run (evs : list JobEvent) (job : Job) : Job :=
  fold_left (fun j e => job_step e j) evs job.

(** A listener or timer of the job with id [jid] runs: the registry entry,
    which is the object the closure holds, is updated in place.  A job that
    has left the registry can no longer be observed. *)
Definition deliver (jid : string) (e : JobEvent) (w : World) : World :=
  match jobs w !! jid with
  | Some job => with_jobs (<[jid := job_step e job]> (jobs w)) w
  | None => w
  end.

(** The number of line feeds in a string. *)
Fixpoint count_LF (s : string) : Z :=
  match s with
  | EmptyString => 0
  | String c s' => (if Ascii.eqb c LF then 1 else 0) + count_LF s'
  end.

(** ** The event loop: one callback at a time *)

Inductive Event :=
| Request (clock : nat -> Z) (call : ToolCall)   (* a [tools/call] request *)
| Callback (jid : string) (e : JobEvent)         (* a listener or timer of a job *)
| Cleanup (jid : string)                         (* [cleanupJob(jid)] *)
| Reap (now : Z).                                (* a tick of the reaper *)

Definition step (isWindows : bool) (ev : Event) (w : World) : World :=
  match ev with
  | Request clock call => snd (handleToolCall isWindows clock call w)
  | Callback jid e => deliver jid e w
  | Cleanup jid => snd (cleanupJob jid w)
  | Reap now => reaper now w
  end.

(** The module state after a sequence of events, starting from the state at
    load time. *)
Definition run (isWindows : bool) (evs : list Event) : World :=
  fold_left (fun w ev => step isWindows ev w) evs empty_world.

(** The buffer of the offset example: a, b and c, each followed by a line
    feed. *)
Definition abc_lines : string := "a" +:+ nl +:+ "b" +:+ nl +:+ "c" +:+ nl.

(** ** Properties of job records *)

(** The counter of a job agrees with its buffer. *)
Definition lines_ok (job : Job) : Prop := outputLines job = count_LF (stdout job).

Definition terminal (s : Status) : Prop := s = done \/ s = error \/ s = killed.

(** While a job runs it has no exit code and it has its process handle. *)
Definition running_ok (job : Job) : Prop :=
  status job = running -> exitCode job = None /\ is_Some (proc job).

(** Every record of a registry satisfies [P]. *)
Definition all_jobs (P : Job -> Prop) (m : gmap string Job) : Prop :=
  forall jid job, m !! jid = Some job -> P job.

(** The character [c] does not occur in [s]. *)
Fixpoint free_of (c : ascii) (s : string) : Prop :=
  match s with
  | EmptyString => True
  | String x s' => x <> c /\ free_of c s'
  end.

(** Every id of the registry was made from a counter value that has been
    used, and the counter never was negative. *)
Definition ids_ok (w : World) : Prop :=
  0 <= jobCounter w /\
  forall jid job, jobs w !! jid = Some job ->
    exists n t, jid = job_id n t /\ n <= jobCounter w.

(** Every record is registered under its own id. *)
Definition keys_ok (m : gmap string Job) : Prop :=
  forall jid job, m !! jid = Some job -> id job = jid.

(** A finished or failed job has let go of its process handle. *)
Definition exited_ok (job : Job) : Prop :=
  status job = done \/ status job = error -> proc job = None.

(** ** The second script version: the choice of the shell *)

(** A template literal or a concatenation prints a value that is not
    defined as the text undefined. *)
Definition template (v : option string) : string := default "undefined" v.

Definition bash_suffix : string := "\Git\bin\bash.exe".

(** The places where Git Bash is looked for, in order; the last two come
    from the environment variables PROGRAMFILES and PROGRAMFILES(X86). *)
Definition gitBash_candidates (programFiles programFilesX86 : option string)
    : list string :=
  ["C:\Program Files\Git\bin\bash.exe";
   "C:\Program Files (x86)\Git\bin\bash.exe";
   template programFiles +:+ bash_suffix;
   template programFilesX86 +:+ bash_suffix].

(** The loop over the candidates: the first one that is not empty and
    exists; [existsSync] is the file system. *)
Fixpoint first_existing (existsSync : string -> bool) (candidates : list string)
    : option string :=
  match candidates with
  | [] => None
  | p :: rest =>
      if negb (String.eqb p "") && existsSync p then Some p
      else first_existing existsSync rest
  end.

(** [gitBashPath] as the script computes it at load time. *)
Definition find_gitBash (isWindows : bool) (existsSync : string -> bool)
    (programFiles programFilesX86 : option string) : option string :=
  if isWindows
  then first_existing existsSync (gitBash_candidates programFiles programFilesX86)
  else None.

(** A value of [gitBashPath] that counts as true: a path that is not
    empty. *)
Definition usable (gitBashPath : option string) : option string :=
  match gitBashPath with
  | Some path => if String.eqb path "" then None else Some path
  | None => None
  end.

(** The [spawn] call of [createJob(command, shell)] in the second
    version. *)
Definition spawn_v2 (isWindows : bool) (gitBashPath : option string)
    (shell command : string) : ChildProcess :=
  if isWindows then
    match (if String.eqb shell "bash" then usable gitBashPath else None) with
    | Some path =>
        {| spawnfile := path; spawnargs := ["-c"; command];
           windowsHide := true; signals := [] |}
    | None =>
        {| spawnfile := "cmd"; spawnargs := ["/c"; command];
           windowsHide := true; signals := [] |}
    end
  else {| spawnfile := "/bin/bash"; spawnargs := ["-c"; command];
          windowsHide := false; signals := [] |}.

(** ** run_command *)

Definition DQ : ascii := ascii_of_nat 34.          (* the double quote *)
Definition BACKSLASH : ascii := ascii_of_nat 92.

(** [command.replace(/dq/g, backslash dq)]: a backslash in front of every
    double quote. *)
Fixpoint escape_quotes (s : string) : string :=
  match s with
  | EmptyString => EmptyString
  | String c s' =>
      if Ascii.eqb c DQ then String BACKSLASH (String DQ (escape_quotes s'))
      else String c (escape_quotes s')
  end.

(** The number of double quotes in a string. *)
Fixpoint count_DQ (s : string) : nat :=
  match s with
  | EmptyString => 0
  | String c s' => (if Ascii.eqb c DQ then 1 else 0) + count_DQ s'
  end.

(** The options [execSync] is given, next to the utf8 encoding. *)
Record ExecOptions := {
  exec_shell : option string;
  exec_timeout : Z;
  exec_windowsHide : bool
}.

(** What [execSync] does: it returns the output, or throws an error that
    has a message and may have the text of stderr. *)
Inductive ExecOutcome :=
| ExecReturns (out : string)
| ExecThrows (err_stderr : option string) (err_message : string).

(** The command line and options of the first version. *)
Definition exec_request (isWindows : bool) (command : string)
    : string * ExecOptions :=
  if isWindows
  then ("cmd /c " +:+ String DQ (escape_quotes command +:+ String DQ ""),
        {| exec_shell := None; exec_timeout := 60000; exec_windowsHide := true |})
  else (command,
        {| exec_shell := Some "/bin/bash"; exec_timeout := 60000;
           exec_windowsHide := false |}).

(** The command line and options of the second version. *)
Definition exec_request_v2 (isWindows : bool) (gitBashPath : option string)
    (shell command : string) : string * ExecOptions :=
  if isWindows then
    match (if String.eqb shell "bash" then usable gitBashPath else None) with
    | Some path =>
        (command,
         {| exec_shell := Some path; exec_timeout := 60000; exec_windowsHide := true |})
    | None =>
        ("cmd /c " +:+ String DQ (escape_quotes command +:+ String DQ ""),
         {| exec_shell := None; exec_timeout := 60000; exec_windowsHide := true |})
    end
  else (command,
        {| exec_shell := Some "/bin/bash"; exec_timeout := 60000;
           exec_windowsHide := false |}).

(** [a || b] on texts: the empty text counts as false. *)
Definition or_text (a : option string) (b : string) : string :=
  match a with
  | Some x => if String.eqb x "" then b else x
  | None => b
  end.

(** The text of the answer: the output, or a placeholder for no output, or
    the error. *)
Definition run_text (outcome : ExecOutcome) : string :=
  match outcome with
  | ExecReturns out => or_text (Some out) "(no output)"
  | ExecThrows err_stderr err_message =>
      "Error: " +:+ or_text err_stderr err_message
  end.

Definition blacklisted_text : string := "Error: Command blacklisted".

(** The [run_command] branch of the first version, for a command that is a
    string. *)
Definition run_command (execSync : string -> ExecOptions -> ExecOutcome)
    (isWindows : bool) (command : string) : string :=
  if negb (validateCommand command) then blacklisted_text
  else
    let '(line, options) := exec_request isWindows command in
    run_text (execSync line options).

(** ** handleRequest and the line listener

    Requests are modelled after parsing and for well-typed values only:
    the method, the tool name, the command and the job id are strings, the
    line offset is an integral number (the schema declares a number; a
    fraction, which [slice] truncates toward zero, is outside the model),
    and each of them may be missing.  A value of another type, such as an
    object in the place of a name, is outside the model.  [JSON.parse], the
    text of the TypeError that [validateCommand] throws for a missing
    command, and [execSync] are parameters.  In [tools_call] and
    [handleRequest] the [spawn] of [createJob] returns; [tools_call_throwing]
    and [handleRequest_throwing] further down add the case in which it
    throws. *)

Record ToolArgs := {
  arg_command : option string;
  arg_job_id : option string;
  arg_from_line : option Z
}.

(** [params?.arguments || {}] when there are no arguments. *)
Definition no_args : ToolArgs :=
  {| arg_command := None; arg_job_id := None; arg_from_line := None |}.

Record Params := {
  p_name : option string;
  p_arguments : option ToolArgs
}.

Record RpcRequest (ReqId : Type) := {
  r_id : ReqId;
  r_method : option string;
  r_params : option Params
}.
Arguments r_id {ReqId}.
Arguments r_method {ReqId}.
Arguments r_params {ReqId}.

(** [JSON.parse(req)] followed by the destructuring of the result: a
    request, or an exception with its message. *)
Inductive ParseOutcome (ReqId : Type) :=
| ParseThrows (message : string)
| Parsed (r : RpcRequest ReqId).
Arguments ParseThrows {ReqId}.
Arguments Parsed {ReqId}.

Inductive Payload :=
| ToolText (r : ToolResult)
| RunText (text : string).

Inductive Response (ReqId : Type) :=
| InitializeResult (rid : ReqId)
| ToolsList (rid : ReqId) (tools : list string)
| Content (rid : ReqId) (p : Payload)
| ErrorResponse (rid : option ReqId) (code : Z) (message : string).
Arguments InitializeResult {ReqId}.
Arguments ToolsList {ReqId}.
Arguments Content {ReqId}.
Arguments ErrorResponse {ReqId}.

(** [v === 'text'] for a value that is a string or not defined. *)
Definition is_text (v : option string) (text : string) : bool :=
  match v with
  | Some x => String.eqb x text
  | None => false
  end.

(** The names in the answer to tools/list. *)
Definition tool_names : list string :=
  ["start_command"; "poll_command"; "kill_command"; "list_jobs"; "run_command"].

(** [pollJob] and [killJob] called with an id that may be missing: no key
    of the Map equals a value that is not defined. *)
Definition pollJob_arg (t1 t2 : Z) (jid : option string) (from : Z) (w : World)
    : PollResult * World :=
  match jid with
  | Some j => pollJob t1 t2 j from w
  | None => (PollError (not_found (template None)), w)
  end.

Definition killJob_arg (jid : option string) (w : World) : KillResult * World :=
  match jid with
  | Some j => killJob j w
  | None => (KillError (not_found (template None)), w)
  end.

Section Requests.
Context {ReqId : Type}.
Variable isWindows : bool.
Variable execSync : string -> ExecOptions -> ExecOutcome.
Variable type_error_message : string.
Variable parse : string -> ParseOutcome ReqId.

(** What the [catch] of [handleRequest] returns. *)
Definition parse_error (message : string) : Response ReqId :=
  ErrorResponse None (-32700) ("Parse error: " +:+ message).

(** The [tools/call] branch for well-typed requests when [spawn] returns.
    [validateCommand] of a missing command throws, and the [catch] of
    [handleRequest] answers. *)
Definition tools_call (rid : ReqId) (clock : nat -> Z) (params : option Params)
    (w : World) : Response ReqId * World :=
  let toolName := params ≫= p_name in
  let args := default no_args (params ≫= p_arguments) in
  if is_text toolName "start_command" then
    match arg_command args with
    | None => (parse_error type_error_message, w)
    | Some cmd =>
        if negb (validateCommand cmd) then (Content rid (ToolText Blacklisted), w)
        else
          let '(jobId, w') :=
            createJob isWindows (clock 0%nat) (clock 1%nat) (clock 2%nat) cmd w in
          (Content rid (ToolText (Started jobId)), w')
    end
  else if is_text toolName "poll_command" then
    let '(r, w') :=
      pollJob_arg (clock 0%nat) (clock 1%nat) (arg_job_id args)
                  (default 0 (arg_from_line args)) w in
    (Content rid (ToolText (Polled r)), w')
  else if is_text toolName "kill_command" then
    let '(r, w') := killJob_arg (arg_job_id args) w in
    (Content rid (ToolText (Killed r)), w')
  else if is_text toolName "list_jobs" then
    let '(r, w') := listJobs clock w in
    (Content rid (ToolText (Listed r)), w')
  else if is_text toolName "run_command" then
    match arg_command args with
    | None => (parse_error type_error_message, w)
    | Some cmd => (Content rid (RunText (run_command execSync isWindows cmd)), w)
    end
  else (ErrorResponse (Some rid) (-32601) ("Unknown tool: " +:+ template toolName), w).

(** [handleRequest(req)]: the answer, [None] for no answer, and the state
    afterwards. *)
Definition handleRequest (clock : nat -> Z) (req : string) (w : World)
    : option (Response ReqId) * World :=
  match parse req with
  | ParseThrows message => (Some (parse_error message), w)
  | Parsed r =>
      let method := r_method r in
      if is_text method "initialize" then (Some (InitializeResult (r_id r)), w)
      else if is_text method "tools/list" then (Some (ToolsList (r_id r) tool_names), w)
      else if is_text method "tools/call" then
        let '(resp, w') := tools_call (r_id r) clock (r_params r) w in
        (Some resp, w')
      else if is_text method "notifications/initialized" then (None, w)
      else (Some (ErrorResponse (Some (r_id r)) (-32601)
                    ("Unknown method: " +:+ template method)), w)
  end.

(** The listener of the line reader: a line that is blank after [trim] is
    dropped; what is printed is the answer, if there is one. *)
Definition on_line (clock : nat -> Z) (line : string) (w : World)
    : option (Response ReqId) * World :=
  if String.eqb (Js.trim line) "" then (None, w)
  else handleRequest clock line w.

End Requests.

(** The parameters of a [tools/call] request that carries a tool call of
    the engine with all its arguments. *)
Definition params_of_call (call : ToolCall) : Params :=
  match call with
  | start_command cmd =>
      {| p_name := Some "start_command";
         p_arguments := Some {| arg_command := Some cmd; arg_job_id := None;
                                arg_from_line := None |} |}
  | poll_command job_id from_line =>
      {| p_name := Some "poll_command";
         p_arguments := Some {| arg_command := None; arg_job_id := Some job_id;
                                arg_from_line := from_line |} |}
  | kill_command job_id =>
      {| p_name := Some "kill_command";
         p_arguments := Some {| arg_command := None; arg_job_id := Some job_id;
                                arg_from_line := None |} |}
  | list_jobs => {| p_name := Some "list_jobs"; p_arguments := None |}
  end.

(** ** createJob when spawn may throw

    [createJob] above is the case in which [spawn] returns a child process
    with its streams.  In the source the counter is advanced first, then
    the process is spawned and the listeners are attached, and only then
    the job is registered; when [spawn] or the attaching of a listener
    throws, the exception leaves [createJob] with the counter advanced and
    nothing registered.  [returns] says which of the two happens. *)
Definition createJob_throwing (returns : bool) (isWindows : bool)
    (t_id t_start t_last : Z) (cmd : string) (w : World)
    : option string * World :=
  let counter := jobCounter w + 1 in
  let jid := job_id counter t_id in
  let job := new_job isWindows jid t_start t_last cmd in
  if returns
  then (Some jid, {| jobs := <[jid := job]> (jobs w); jobCounter := counter;
                     timers := timers w |})
  else (None, {| jobs := jobs w; jobCounter := counter; timers := timers w |}).

Section RequestsThrowing.
Context {ReqId : Type}.
Variable isWindows : bool.
Variable execSync : string -> ExecOptions -> ExecOutcome.
Variable type_error_message : string.
Variable parse : string -> ParseOutcome ReqId.
(** Whether [spawn] returns for a command, and the message of what it
    throws otherwise. *)
Variable spawn_returns : string -> bool.
Variable spawn_error_message : string.

(** The [tools/call] branch with both exceptions that the [catch] of
    [handleRequest] can see for well-typed requests: [validateCommand] of a
    missing command, and [createJob] when [spawn] throws. *)
Definition tools_call_throwing (rid : ReqId) (clock : nat -> Z)
    (params : option Params) (w : World) : Response ReqId * World :=
  let toolName := params ≫= p_name in
  let args := default no_args (params ≫= p_arguments) in
  if is_text toolName "start_command" then
    match arg_command args with
    | None => (parse_error type_error_message, w)
    | Some cmd =>
        if negb (validateCommand cmd) then (Content rid (ToolText Blacklisted), w)
        else
          match createJob_throwing (spawn_returns cmd) isWindows
                  (clock 0%nat) (clock 1%nat) (clock 2%nat) cmd w with
          | (Some jobId, w') => (Content rid (ToolText (Started jobId)), w')
          | (None, w') => (parse_error spawn_error_message, w')
          end
    end
  else if is_text toolName "poll_command" then
    let '(r, w') :=
      pollJob_arg (clock 0%nat) (clock 1%nat) (arg_job_id args)
                  (default 0 (arg_from_line args)) w in
    (Content rid (ToolText (Polled r)), w')
  else if is_text toolName "kill_command" then
    let '(r, w') := killJob_arg (arg_job_id args) w in
    (Content rid (ToolText (Killed r)), w')
  else if is_text toolName "list_jobs" then
    let '(r, w') := listJobs clock w in
    (Content rid (ToolText (Listed r)), w')
  else if is_text toolName "run_command" then
    match arg_command args with
    | None => (parse_error type_error_message, w)
    | Some cmd => (Content rid (RunText (run_command execSync isWindows cmd)), w)
    end
  else (ErrorResponse (Some rid) (-32601) ("Unknown tool: " +:+ template toolName), w).

Definition handleRequest_throwing (clock : nat -> Z) (req : string) (w : World)
    : option (Response ReqId) * World :=
  match parse req with
  | ParseThrows message => (Some (parse_error message), w)
  | Parsed r =>
      let method := r_method r in
      if is_text method "initialize" then (Some (InitializeResult (r_id r)), w)
      else if is_text method "tools/list" then (Some (ToolsList (r_id r) tool_names), w)
      else if is_text method "tools/call" then
        let '(resp, w') := tools_call_throwing (r_id r) clock (r_params r) w in
        (Some resp, w')
      else if is_text method "notifications/initialized" then (None, w)
      else (Some (ErrorResponse (Some (r_id r)) (-32601)
                    ("Unknown method: " +:+ template method)), w)
  end.

End RequestsThrowing.

(** ** The summaries of listJobs in the order of the Map

    The loop of [listJobs] visits the entries of the Map in insertion
    order, which the registry of the model does not record.  [summaries]
    is the loop for a given order [entries]; [listJobs] above is
    [summaries] in the order of [map_to_list]. *)
Definition summary (elapsed_at : Z) (jid : string) (job : Job) : JobSummary :=
  {| s_id := jid;
     s_command := substring 0 100 (command job);
     s_status := status job;
     s_elapsedMs := elapsed_at - startTime job;
     s_outputLines := outputLines job |}.

Definition summaries (clock : nat -> Z) (entries : list (string * Job))
    : list JobSummary :=
  imap (fun i '(jid, job) => summary (clock i) jid job) entries.

(** ** Letter case within ASCII *)

(** A-Z moved to a-z, every other code unit left alone. *)
Definition asciiLowerChar (c : ascii) : ascii :=
  if Js.between 65 90 c then Js.shift 32 c else c.

Fixpoint asciiLower (s : string) : string :=
  match s with
  | EmptyString => EmptyString
  | String c s' => String (asciiLowerChar c) (asciiLower s')
  end.

(** ** Sample states *)

Definition sample_clock : nat -> Z := fun _ => 1000.
Definition sample_id : string := "job_1_1000".

(** One job, started with ls -la at time 1000. *)
Definition w_started : World :=
  run false [Request sample_clock (start_command "ls -la")].

(** The same job after one chunk, the three lines a, b, c, at time 1005. *)
Definition w_abc : World :=
  step false (Callback sample_id (StdoutData 1005 abc_lines)) w_started.

(** The same job after its process has exited with code 0. *)
Definition w_done : World :=
  step false (Callback sample_id (Close (Some 0))) w_abc.

(** The sample job is killed while it runs ... *)
Definition evs_killed : list Event :=
  [Request sample_clock (start_command "ls -la");
   Callback sample_id (StdoutData 1005 abc_lines);
   Request sample_clock (kill_command sample_id)].

(** ... and then its process closes, a late chunk arrives and the reaper
    sweeps. *)
Definition evs_later : list Event :=
  [Callback sample_id (Close None);
   Callback sample_id (StderrData 1010 "late");
   Reap 2000].

(** The three lines arrive in two chunks, cut before the second line
    feed. *)
Definition evs_chunks : list Event :=
  [Request sample_clock (start_command "ls -la");
   Callback sample_id (StdoutData 1001 ("a" +:+ nl +:+ "b"));
   Callback sample_id (StdoutData 1002 (nl +:+ "c" +:+ nl))].

(** A parser that reads every line as the request with id 7 that calls
    run_command without arguments, and an [execSync] without output. *)
Definition sample_parse : string -> ParseOutcome Z :=
  fun _ => Parsed {| r_id := 7; r_method := Some "tools/call";
                     r_params := Some {| p_name := Some "run_command";
                                         p_arguments := None |} |}.

Definition sample_exec : string -> ExecOptions -> ExecOutcome :=
  fun _ _ => ExecReturns "".

(** A parser that reads every line as the request with id 7 that starts
    the command ls. *)
Definition sample_parse_start : string -> ParseOutcome Z :=
  fun _ => Parsed {| r_id := 7; r_method := Some "tools/call";
                     r_params := Some (params_of_call (start_command "ls")) |}.

Definition tab : string := String (ascii_of_nat 9) EmptyString.

Example validate_rm : validateCommand "rm -rf /" = false.
Proof. reflexivity. Qed.
Example validate_ls : validateCommand "ls -la" = true.
Proof. reflexivity. Qed.
Example validate_cmd_del : validateCommand "cmd /c del foo" = false.
Proof. reflexivity. Qed.
Example validate_CMD_DEL : validateCommand ("  CMD" +:+ tab +:+ "/C  'DEL' foo") = false.
Proof. reflexivity. Qed.
Example validate_cmd_dir : validateCommand "cmd /c dir" = true.
Proof. reflexivity. Qed.
Example validate_cmd_delexe : validateCommand "cmd /c del.exe foo" = false.
Proof. reflexivity. Qed.
Example validate_cmdk : validateCommand "cmd /k del foo" = true.
Proof. reflexivity. Qed.
Example validate_empty : validateCommand "" = true.
Proof. reflexivity. Qed.
Example split_ws_ex : Js.split_ws "a  b " = ["a"; "b"; ""].
Proof. reflexivity. Qed.

(** ** Line counting *)

Lemma count_LF_app s1 s2 : count_LF (s1 +:+ s2) = count_LF s1 + count_LF s2.
Proof. induction s1 as [|c s1 IH]; simpl; [done | rewrite IH; lia]. Qed.

Lemma length_cons_head c l : l <> [] -> length (Js.cons_head c l) = length l.
Proof. by destruct l. Qed.

Lemma split_nonempty sep s : Js.split sep s <> [].
Proof.
  induction s as [|c s IH]; simpl; [done|].
  destruct (Ascii.eqb c sep); [done|].
  by destruct (Js.split sep s).
Qed.

(** The number of segments of a split at line feeds is the number of line
    feeds plus one. *)
Lemma split_length s : Z.of_nat (length (Js.split LF s)) = count_LF s + 1.
Proof.
  induction s as [|c s IH]; simpl; [done|].
  destruct (Ascii.eqb c LF); simpl.
  - lia.
  - rewrite length_cons_head by apply split_nonempty. lia.
Qed.

Lemma lines_ok_new isWindows jid t1 t2 cmd : lines_ok (new_job isWindows jid t1 t2 cmd).
Proof. reflexivity. Qed.

Lemma lines_ok_step e job : lines_ok job -> lines_ok (job_step e job).
Proof.
  unfold lines_ok. destruct e; simpl; try done.
  - intros ->. rewrite count_LF_app, split_length. lia.
  - unfold kill_job, signal_if_alive. by destruct (proc job).
  - unfold on_kill_timeout, signal_if_alive. by destruct (proc job).
Qed.

Lemma lines_ok_run evs job : lines_ok job -> lines_ok (job_run evs job).
Proof.
  unfold job_run. revert job.
  induction evs as [|e evs IH]; simpl; [done|].
  intros job H. by apply IH, lines_ok_step.
Qed.

(** ** The reaper as a filter *)

Lemma reaper_fold_lookup now (m0 m : gmap string Job) jid :
  map_fold (fun i job acc => if expired now job then delete i acc else acc) m0 m !! jid
  = match m !! jid with
    | Some job => if expired now job then None else m0 !! jid
    | None => m0 !! jid
    end.
Proof.
  revert jid.
  apply (map_fold_weak_ind (fun r (m : gmap string Job) => forall jid,
    r !! jid = match m !! jid with
               | Some job => if expired now job then None else m0 !! jid
               | None => m0 !! jid
               end)).
  - intros jid. by rewrite lookup_empty.
  - intros i x m' r Hi IH jid.
    destruct (decide (i = jid)) as [->|Hne].
    + rewrite lookup_insert_eq. destruct (expired now x) eqn:Hx.
      * by rewrite lookup_delete_eq.
      * rewrite IH, Hi. done.
    + rewrite lookup_insert_ne by done.
      destruct (expired now x).
      * rewrite lookup_delete_ne by done. apply IH.
      * apply IH.
Qed.

Lemma reaper_lookup now w jid :
  jobs (reaper now w) !! jid
  = match jobs w !! jid with
    | Some job => if expired now job then None else Some job
    | None => None
    end.
Proof.
  unfold reaper; simpl. rewrite reaper_fold_lookup.
  destruct (jobs w !! jid) as [job|] eqn:E; [|done].
  by destruct (expired now job).
Qed.

Lemma status_eqb_eq a b : status_eqb a b = true <-> a = b.
Proof. destruct a, b; simpl; split; congruence. Qed.

Lemma expired_spec now job :
  expired now job = true <-> status job <> running /\ now - startTime job > 300000.
Proof.
  unfold expired. rewrite andb_true_iff, negb_true_iff, Z.ltb_lt.
  split; intros [H1 H2]; split; try lia.
  - intros E. apply status_eqb_eq in E. congruence.
  - destruct (status_eqb (status job) running) eqn:E; [|done].
    apply status_eqb_eq in E. done.
Qed.

(** ** Poll *)

Lemma pollJob_found t1 t2 jid from w job :
  jobs w !! jid = Some job ->
  pollJob t1 t2 jid from w = (PollOk (poll_view t1 t2 from job), w).
Proof. intros H. unfold pollJob. by rewrite H. Qed.

(** C2, as stated, fails: for the job whose stdout buffer is the three
    lines a, b, c, each ended by a line feed, [pollJob] from line 0 does not
    return the text without the last line feed; the empty fourth segment
    is joined back, so the output ends in a line feed. *)
Lemma poll_offset_counterexample :
  exists job info,
    jobs w_abc !! sample_id = Some job /\
    stdout job = abc_lines /\
    fst (pollJob 2000 2000 sample_id 0 w_abc) = PollOk info /\
    output info = abc_lines /\
    output info <> "a" +:+ nl +:+ "b" +:+ nl +:+ "c".
Proof.
  do 2 eexists. repeat split; try (vm_compute; reflexivity).
  vm_compute. discriminate.
Qed.

(** C2, amended: for a job whose stdout buffer is the three lines a, b, c,
    each ended by a line feed, [pollJob] from line 0 returns the whole
    buffer (line feed at the end included), from line 1 returns b and c each
    followed by a line feed, from line 5 returns the empty string and no
    error, and [totalLines] is 4. *)
Theorem poll_offset_correct (t1 t2 : Z) (jid : string) (w : World) (job : Job) :
  jobs w !! jid = Some job ->
  stdout job = abc_lines ->
  exists i0 i1 i5,
    fst (pollJob t1 t2 jid 0 w) = PollOk i0 /\
    fst (pollJob t1 t2 jid 1 w) = PollOk i1 /\
    fst (pollJob t1 t2 jid 5 w) = PollOk i5 /\
    output i0 = "a" +:+ nl +:+ "b" +:+ nl +:+ "c" +:+ nl /\
    output i1 = "b" +:+ nl +:+ "c" +:+ nl /\
    output i5 = "" /\
    totalLines i0 = 4 /\ totalLines i1 = 4 /\ totalLines i5 = 4.
Proof.
  intros Hjob Hout.
  exists (poll_view t1 t2 0 job), (poll_view t1 t2 1 job), (poll_view t1 t2 5 job).
  rewrite !(pollJob_found _ _ _ _ _ _ Hjob). simpl.
  rewrite Hout. repeat split; reflexivity.
Qed.

Lemma poll_offset_correct_witness :
  exists i0 i1 i5,
    fst (pollJob 2000 2001 sample_id 0 w_abc) = PollOk i0 /\
    fst (pollJob 2000 2001 sample_id 1 w_abc) = PollOk i1 /\
    fst (pollJob 2000 2001 sample_id 5 w_abc) = PollOk i5 /\
    output i0 = "a" +:+ nl +:+ "b" +:+ nl +:+ "c" +:+ nl /\
    output i1 = "b" +:+ nl +:+ "c" +:+ nl /\
    output i5 = "" /\
    totalLines i0 = 4 /\ totalLines i1 = 4 /\ totalLines i5 = 4.
Proof.
  apply (poll_offset_correct 2000 2001 sample_id w_abc
           (job_step (StdoutData 1005 abc_lines)
              (new_job false sample_id 1000 1000 "ls -la")));
    vm_compute; reflexivity.
Defined.

Lemma isStalled_view t1 t2 from job :
  isStalled (poll_view t1 t2 from job) = true
  <-> t2 - lastOutputTime job > 30000 /\ status job = running.
Proof.
  simpl. rewrite andb_true_iff, Z.ltb_lt, status_eqb_eq.
  split; intros [Hidle Hrun]; (split; [lia | exact Hrun]).
Qed.

(** C6: for a job in the registry, [pollJob] reports the time since the
    last chunk on either stream as [idleSinceMs] and reports [isStalled]
    exactly when that time exceeds 30000 ms and the status is running; so a
    job that is not running is never stalled, and a running job polled at
    the clock reading of a chunk it has just received, on stdout or on
    stderr, is not stalled. *)
Theorem stall_detection (t1 t2 : Z) (jid : string) (from : Z) (w : World) (job : Job) :
  jobs w !! jid = Some job ->
  exists info,
    fst (pollJob t1 t2 jid from w) = PollOk info /\
    idleSinceMs info = t2 - lastOutputTime job /\
    (isStalled info = true <-> idleSinceMs info > 30000 /\ status job = running) /\
    (status job <> running -> isStalled info = false) /\
    (forall text,
       lastOutputTime (on_stdout_data t2 text job) = t2 /\
       lastOutputTime (on_stderr_data t2 text job) = t2 /\
       isStalled (poll_view t1 t2 from (on_stdout_data t2 text job)) = false /\
       isStalled (poll_view t1 t2 from (on_stderr_data t2 text job)) = false).
Proof.
  intros Hjob. exists (poll_view t1 t2 from job).
  rewrite (pollJob_found _ _ _ _ _ _ Hjob).
  split; [done|]. split; [done|]. split; [apply isStalled_view|].
  split.
  - intros Hs. destruct (isStalled _) eqn:E; [|done].
    apply isStalled_view in E. tauto.
  - intros text. simpl. replace (t2 - t2) with 0 by lia. done.
Qed.

Lemma stall_detection_witness :
  exists info,
    fst (pollJob 40000 40000 sample_id 0 w_abc) = PollOk info /\
    idleSinceMs info = 38995 /\
    isStalled info = true.
Proof.
  destruct (stall_detection 40000 40000 sample_id 0 w_abc
              (job_step (StdoutData 1005 abc_lines)
                 (new_job false sample_id 1000 1000 "ls -la")))
    as (info & Hp & Hidle & Hstall & _).
  { vm_compute; reflexivity. }
  exists info. split; [exact Hp|]. split; [exact Hidle|].
  apply Hstall. rewrite Hidle. split; [vm_compute; reflexivity | reflexivity].
Defined.

(** C7: [pollJob] leaves the module state, and with it every field of
    every job record, as it was; and two polls with the same [fromLine] of
    jobs whose stdout buffers are equal return the same [output] and the
    same [totalLines], whatever the clock reads and whatever else
    differs. *)
Theorem poll_read_only (t1 t2 t1' t2' : Z) (jid : string) (from : Z)
    (w w' : World) (job job' : Job) :
  jobs w !! jid = Some job ->
  jobs w' !! jid = Some job' ->
  stdout job = stdout job' ->
  snd (pollJob t1 t2 jid from w) = w /\
  jobs (snd (pollJob t1 t2 jid from w)) !! jid = Some job /\
  exists info info',
    fst (pollJob t1 t2 jid from w) = PollOk info /\
    fst (pollJob t1' t2' jid from w') = PollOk info' /\
    output info = output info' /\
    totalLines info = totalLines info'.
Proof.
  intros Hjob Hjob' Hout.
  rewrite (pollJob_found _ _ _ _ _ _ Hjob), (pollJob_found _ _ _ _ _ _ Hjob').
  split; [done|]. split; [done|].
  do 2 eexists. split; [done|]. split; [done|].
  simpl. by rewrite Hout.
Qed.

Lemma poll_read_only_witness :
  snd (pollJob 2000 2001 sample_id 1 w_abc) = w_abc /\
  exists info info',
    fst (pollJob 2000 2001 sample_id 1 w_abc) = PollOk info /\
    fst (pollJob 3000 3001 sample_id 1 w_done) = PollOk info' /\
    output info = output info' /\
    totalLines info = totalLines info'.
Proof.
  destruct (poll_read_only 2000 2001 3000 3001 sample_id 1 w_abc w_done
              (job_step (StdoutData 1005 abc_lines)
                 (new_job false sample_id 1000 1000 "ls -la"))
              (job_step (Close (Some 0))
                 (job_step (StdoutData 1005 abc_lines)
                    (new_job false sample_id 1000 1000 "ls -la"))))
    as (H1 & _ & H2); try (vm_compute; reflexivity).
  split; [exact H1 | exact H2].
Defined.

(** The unchanged state also holds for an id that is not registered. *)
Lemma pollJob_state t1 t2 jid from w : snd (pollJob t1 t2 jid from w) = w.
Proof. unfold pollJob. by destruct (jobs w !! jid). Qed.

(** ** Cleanup *)

(** C3, as stated, fails: [cleanupJob] for an id that was never registered
    returns the very error it returns for a running job, and that error is
    not the not-found error [pollJob] and [killJob] return for the same
    id. *)
Lemma cleanup_counterexample :
  jobs w_started !! "nope" = None /\
  (status <$> jobs w_started !! sample_id) = Some running /\
  fst (cleanupJob "nope" w_started) = fst (cleanupJob sample_id w_started) /\
  fst (cleanupJob "nope" w_started) = CleanupError "Job still running or not found" /\
  fst (pollJob 2000 2000 "nope" 0 w_started) = PollError "Job not found: nope" /\
  fst (killJob "nope" w_started) = KillError "Job not found: nope" /\
  "Job still running or not found" <> "Job not found: nope".
Proof. repeat split; try (vm_compute; reflexivity). discriminate. Qed.

(** C3, amended: [cleanupJob] for an id without a job record and for a job
    whose status is running returns one and the same error, 'Job still
    running or not found', and leaves the module state as it was; for a job
    in any other status it deletes the record, leaves every other record in
    place and reports success. *)
Theorem cleanup_cases (jid : string) (w : World) :
  match jobs w !! jid with
  | None => cleanupJob jid w = (CleanupError cleanup_message, w)
  | Some job =>
      match status job with
      | running =>
          cleanupJob jid w = (CleanupError cleanup_message, w) /\
          jobs (snd (cleanupJob jid w)) !! jid = Some job
      | _ =>
          fst (cleanupJob jid w) = CleanupOk /\
          jobs (snd (cleanupJob jid w)) !! jid = None /\
          (forall other, other <> jid ->
             jobs (snd (cleanupJob jid w)) !! other = jobs w !! other) /\
          jobCounter (snd (cleanupJob jid w)) = jobCounter w
      end
  end.
Proof.
  unfold cleanupJob.
  destruct (jobs w !! jid) as [job|] eqn:Hjob; [|done].
  destruct (status job); simpl; rewrite ?Hjob; try done;
    (split; [done|]; split; [apply lookup_delete_eq|]; split; [|done];
     intros other Hne; by apply lookup_delete_ne).
Qed.

(** ** Kill *)

Lemma status_kill_job job : status (kill_job job) = killed.
Proof. reflexivity. Qed.

Lemma proc_kill_job job : is_Some (proc job) -> is_Some (proc (kill_job job)).
Proof.
  intros [p Hp]. unfold kill_job, signal_if_alive. rewrite Hp. simpl. eauto.
Qed.

Lemma killJob_found jid w job :
  jobs w !! jid = Some job ->
  fst (killJob jid w) = KillOk jid /\
  jobs (snd (killJob jid w)) !! jid = Some (kill_job job).
Proof.
  intros H. unfold killJob. rewrite H. simpl. split; [done|].
  apply lookup_insert_eq.
Qed.

(** C4: for an id in the registry, [killJob] reports success, whether or
    not the job still has a process handle; right after the call the status
    is killed while a handle that was present is still present (the process
    has not been seen to exit); the record stays in the registry, and a
    second [killJob] reports success again and leaves the status killed. *)
Theorem kill_idempotent (jid : string) (w : World) (job : Job) :
  jobs w !! jid = Some job ->
  let w1 := snd (killJob jid w) in
  let w2 := snd (killJob jid w1) in
  fst (killJob jid w) = KillOk jid /\
  (exists job1, jobs w1 !! jid = Some job1 /\ status job1 = killed /\
                (is_Some (proc job) -> is_Some (proc job1))) /\
  fst (killJob jid w1) = KillOk jid /\
  (exists job2, jobs w2 !! jid = Some job2 /\ status job2 = killed).
Proof.
  intros Hjob w1 w2.
  destruct (killJob_found jid w job Hjob) as [Hr1 Hl1].
  destruct (killJob_found jid w1 (kill_job job) Hl1) as [Hr2 Hl2].
  split; [exact Hr1|]. split.
  { exists (kill_job job). split; [exact Hl1|]. split; [reflexivity|].
    apply proc_kill_job. }
  split; [exact Hr2|].
  exists (kill_job (kill_job job)). split; [exact Hl2 | reflexivity].
Qed.

(** The witness kills a job whose process has already closed, three
    times over. *)
Lemma kill_idempotent_witness :
  fst (killJob sample_id w_done) = KillOk sample_id /\
  fst (killJob sample_id (snd (killJob sample_id w_done))) = KillOk sample_id /\
  (status <$> jobs (snd (killJob sample_id w_done)) !! sample_id) = Some killed.
Proof.
  destruct (kill_idempotent sample_id w_done
              (job_step (Close (Some 0))
                 (job_step (StdoutData 1005 abc_lines)
                    (new_job false sample_id 1000 1000 "ls -la"))))
    as (H1 & (job1 & Hl & Hs & _) & H2 & _).
  { vm_compute; reflexivity. }
  split; [exact H1|]. split; [exact H2|].
  rewrite Hl. simpl. by rewrite Hs.
Defined.

(** ** Submission *)

(** C8: a [start_command] whose command the guard rejects is answered with
    the blacklisted error and leaves the module state as it was: the
    registry holds the same records, the counter from which ids are made is
    not advanced, and no process is spawned. *)
Theorem blacklisted_submit (isWindows : bool) (clock : nat -> Z) (cmd : string)
    (w : World) :
  validateCommand cmd = false ->
  handleToolCall isWindows clock (start_command cmd) w = (Blacklisted, w) /\
  jobs (snd (handleToolCall isWindows clock (start_command cmd) w)) = jobs w /\
  jobCounter (snd (handleToolCall isWindows clock (start_command cmd) w)) = jobCounter w.
Proof. intros H. simpl. rewrite H. simpl. done. Qed.

Lemma blacklisted_submit_witness :
  handleToolCall true sample_clock (start_command "rm -rf /") w_started
  = (Blacklisted, w_started).
Proof.
  apply (blacklisted_submit true sample_clock "rm -rf /" w_started).
  vm_compute; reflexivity.
Defined.

(** An accepted command, for contrast, advances the counter and registers a
    running job under the new id. *)
Lemma accepted_submit isWindows clock cmd w :
  validateCommand cmd = true ->
  let jid := job_id (jobCounter w + 1) (clock 0%nat) in
  let r := handleToolCall isWindows clock (start_command cmd) w in
  fst r = Started jid /\
  jobCounter (snd r) = jobCounter w + 1 /\
  jobs (snd r) !! jid = Some (new_job isWindows jid (clock 1%nat) (clock 2%nat) cmd).
Proof.
  intros H. simpl. rewrite H. simpl. repeat split. apply lookup_insert_eq.
Qed.

(** ** Reaper *)

(** C9: a sweep of the reaper at clock reading [now] removes a job exactly
    when its status is not running and [now - startTime] exceeds 300000 ms;
    every record it keeps is unchanged; so a running job stays whatever its
    age, and a job that is not older than the window stays whatever its
    status.  The sweep changes nothing but the registry. *)
Theorem reaper_exact (now : Z) (w : World) :
  (forall jid,
     jobs (reaper now w) !! jid = None <->
     jobs w !! jid = None \/
     exists job, jobs w !! jid = Some job /\
                 status job <> running /\ now - startTime job > 300000) /\
  (forall jid job, jobs (reaper now w) !! jid = Some job -> jobs w !! jid = Some job) /\
  (forall jid job, jobs w !! jid = Some job -> status job = running ->
                   jobs (reaper now w) !! jid = Some job) /\
  (forall jid job, jobs w !! jid = Some job -> now - startTime job <= 300000 ->
                   jobs (reaper now w) !! jid = Some job) /\
  jobCounter (reaper now w) = jobCounter w /\
  timers (reaper now w) = timers w.
Proof.
  repeat split.
  - rewrite reaper_lookup. destruct (jobs w !! jid) as [job|] eqn:Hjob; [|by left].
    destruct (expired now job) eqn:Hexp; [|done].
    intros _. right. exists job. split; [done|]. by apply expired_spec.
  - rewrite reaper_lookup. intros [H|(job & H & Hexp)]; rewrite H; [done|].
    apply expired_spec in Hexp. by rewrite Hexp.
  - intros jid job. rewrite reaper_lookup.
    destruct (jobs w !! jid) as [job'|]; [|done].
    by destruct (expired now job').
  - intros jid job Hjob Hrun. rewrite reaper_lookup, Hjob.
    destruct (expired now job) eqn:Hexp; [|done].
    apply expired_spec in Hexp. tauto.
  - intros jid job Hjob Hage. rewrite reaper_lookup, Hjob.
    destruct (expired now job) eqn:Hexp; [|done].
    apply expired_spec in Hexp. lia.
Qed.

(** The sweep at 400000 removes the finished sample job, started at 1000,
    and keeps it while it runs. *)
Lemma reaper_exact_witness :
  jobs (reaper 400000 w_done) !! sample_id = None /\
  is_Some (jobs (reaper 400000 w_abc) !! sample_id) /\
  is_Some (jobs (reaper 300000 w_done) !! sample_id).
Proof.
  split; [|split].
  - apply (proj1 (reaper_exact 400000 w_done)). right.
    eexists. split; [vm_compute; reflexivity|].
    split; [discriminate | vm_compute; reflexivity].
  - eexists. eapply (proj1 (proj2 (proj2 (reaper_exact 400000 w_abc)))).
    + vm_compute; reflexivity.
    + reflexivity.
  - eexists. eapply (proj1 (proj2 (proj2 (proj2 (reaper_exact 300000 w_done))))).
    + vm_compute; reflexivity.
    + vm_compute. discriminate.
Defined.

(** ** Invariants of the event loop *)

Section Invariant.
Variable P : Job -> Prop.
Hypothesis P_new : forall isWindows jid t1 t2 cmd, P (new_job isWindows jid t1 t2 cmd).
Hypothesis P_step : forall e job, P job -> P (job_step e job).

Lemma all_jobs_insert jid job (m : gmap string Job) :
  P job -> all_jobs P m -> all_jobs P (<[jid := job]> m).
Proof.
  intros Hjob Hm jid' job'. destruct (decide (jid = jid')) as [->|Hne].
  - rewrite lookup_insert_eq. by intros [= <-].
  - rewrite lookup_insert_ne by done. apply Hm.
Qed.

Lemma all_jobs_delete jid (m : gmap string Job) :
  all_jobs P m -> all_jobs P (delete jid m).
Proof.
  intros Hm jid' job'. destruct (decide (jid = jid')) as [->|Hne].
  - by rewrite lookup_delete_eq.
  - rewrite lookup_delete_ne by done. apply Hm.
Qed.

Lemma all_jobs_step isWindows ev w :
  all_jobs P (jobs w) -> all_jobs P (jobs (step isWindows ev w)).
Proof.
  intros Hw. destruct ev as [clock call|jid e|jid|now]; simpl.
  - destruct call as [cmd|jid from|jid|]; simpl.
    + destruct (validateCommand cmd); simpl; [|done].
      apply all_jobs_insert; [apply P_new | done].
    + unfold pollJob. by destruct (jobs w !! jid).
    + unfold killJob. destruct (jobs w !! jid) as [job|] eqn:Hjob; simpl; [|done].
      apply all_jobs_insert; [|done]. apply (P_step Kill). by eapply Hw.
    + done.
  - unfold deliver. destruct (jobs w !! jid) as [job|] eqn:Hjob; [|done].
    simpl. apply all_jobs_insert; [|done]. apply P_step. by eapply Hw.
  - unfold cleanupJob. destruct (jobs w !! jid) as [job|] eqn:Hjob; [|done].
    destruct (negb _); simpl; [|done].
    by apply all_jobs_delete.
  - intros jid job Hjob. apply (Hw jid).
    change (jobs (reaper now w) !! jid = Some job) in Hjob.
    rewrite reaper_lookup in Hjob.
    destruct (jobs w !! jid) as [job'|]; [|done].
    by destruct (expired now job').
Qed.

Lemma all_jobs_fold isWindows evs w :
  all_jobs P (jobs w) ->
  all_jobs P (jobs (fold_left (fun w ev => step isWindows ev w) evs w)).
Proof.
  revert w. induction evs as [|ev evs IH]; simpl; [done|].
  intros w Hw. by apply IH, all_jobs_step.
Qed.

Lemma all_jobs_run isWindows evs : all_jobs P (jobs (run isWindows evs)).
Proof. apply all_jobs_fold. intros jid job. simpl. by rewrite lookup_empty. Qed.
End Invariant.

(** The counter is a sum over the chunks, and the sum over the chunks is
    the count over their concatenation. *)
Lemma chunks_counter (chunks : list string) :
  fold_left (fun n text => n + (Z.of_nat (length (Js.split LF text)) - 1)) chunks 0
  = count_LF (fold_left (fun buf text => buf +:+ text) chunks "").
Proof.
  change 0 with (count_LF "") at 1. generalize "" as buf.
  induction chunks as [|text chunks IH]; simpl; [done|].
  intros buf. rewrite <- IH, count_LF_app, split_length.
  f_equal. lia.
Qed.

(** C10: after any sequence of requests, listener and timer callbacks,
    cleanups and reaper sweeps, with stdout chunks cut at arbitrary places,
    the counter [outputLines] of every job in the registry is the number of
    line feeds in its stdout buffer, and is one less than the [totalLines]
    that [pollJob] computes from the buffer. *)
Theorem outputLines_counts_newlines (isWindows : bool) (evs : list Event)
    (jid : string) (job : Job) (t1 t2 from : Z) :
  jobs (run isWindows evs) !! jid = Some job ->
  outputLines job = count_LF (stdout job) /\
  outputLines job = totalLines (poll_view t1 t2 from job) - 1 /\
  exists info,
    fst (pollJob t1 t2 jid from (run isWindows evs)) = PollOk info /\
    totalLines info = outputLines job + 1.
Proof.
  intros Hjob.
  assert (Hok : lines_ok job).
  { apply (all_jobs_run lines_ok lines_ok_new lines_ok_step isWindows evs jid job Hjob). }
  unfold lines_ok in Hok.
  assert (Htot : totalLines (poll_view t1 t2 from job) = outputLines job + 1).
  { simpl. rewrite split_length. lia. }
  split; [exact Hok|]. split; [lia|].
  exists (poll_view t1 t2 from job).
  rewrite (pollJob_found _ _ _ _ _ _ Hjob). split; [done | exact Htot].
Qed.

(** The witness delivers the three lines in two chunks. *)
Lemma outputLines_counts_newlines_witness :
  exists job,
    jobs (run false evs_chunks) !! sample_id = Some job /\
    stdout job = abc_lines /\
    outputLines job = 3 /\
    totalLines (poll_view 2000 2000 0 job) = 4.
Proof.
  pose (job := job_run [StdoutData 1001 ("a" +:+ nl +:+ "b");
                        StdoutData 1002 (nl +:+ "c" +:+ nl)]
                       (new_job false sample_id 1000 1000 "ls -la")).
  assert (Hjob : jobs (run false evs_chunks) !! sample_id = Some job)
    by (vm_compute; reflexivity).
  destruct (outputLines_counts_newlines false evs_chunks sample_id job 2000 2000 0 Hjob)
    as (Hcount & Htotal & _).
  exists job. split; [exact Hjob|]. split; [reflexivity|].
  split; [rewrite Hcount; reflexivity|].
  apply (Z.sub_cancel_r _ _ 1). rewrite <- Htotal, Hcount. reflexivity.
Defined.

(** ** Status *)

(** C1, as stated, fails: the sample job, once its process has closed with
    code 0, is done with exit code 0; a kill request then changes the
    status to killed and leaves the exit code set.  And a job that was
    killed becomes done when its process closes, with no exit code when a
    signal ended it. *)
Lemma status_closure_counterexample :
  let kill := Request sample_clock (kill_command sample_id) in
  let close := Callback sample_id (Close None) in
  (status <$> jobs w_done !! sample_id) = Some done /\
  (status <$> jobs (step false kill w_done) !! sample_id) = Some killed /\
  (exitCode <$> jobs (step false kill w_done) !! sample_id) = Some (Some 0) /\
  (status <$> jobs (step false kill w_abc) !! sample_id) = Some killed /\
  (status <$> jobs (step false close (step false kill w_abc)) !! sample_id) = Some done /\
  (exitCode <$> jobs (step false close (step false kill w_abc)) !! sample_id) = Some None.
Proof. repeat split; vm_compute; reflexivity. Qed.

Lemma terminal_step e job : terminal (status job) -> terminal (status (job_step e job)).
Proof.
  unfold terminal. destruct e; simpl; try tauto.
  unfold on_kill_timeout, signal_if_alive. by destruct (proc job).
Qed.

Lemma running_ok_new isWindows jid t1 t2 cmd : running_ok (new_job isWindows jid t1 t2 cmd).
Proof. intros _. simpl. eauto. Qed.

Lemma signal_if_alive_fields sig job :
  status (signal_if_alive sig job) = status job /\
  exitCode (signal_if_alive sig job) = exitCode job /\
  stdout (signal_if_alive sig job) = stdout job /\
  (is_Some (proc (signal_if_alive sig job)) <-> is_Some (proc job)).
Proof.
  unfold signal_if_alive. destruct (proc job) as [p|] eqn:Hp; simpl.
  - repeat split; eauto.
  - rewrite Hp. repeat split; eauto.
Qed.

Lemma running_ok_step e job : running_ok job -> running_ok (job_step e job).
Proof.
  unfold running_ok. destruct e; simpl; try done.
  unfold on_kill_timeout.
  destruct (signal_if_alive_fields SIGKILL job) as (-> & -> & _ & ->). done.
Qed.

(** *** Identifiers are not reused *)

Lemma free_of_app c s1 s2 : free_of c s1 -> free_of c s2 -> free_of c (s1 +:+ s2).
Proof. induction s1 as [|x s1 IH]; simpl; [done|]. intros [? ?] ?. auto. Qed.

Lemma app_sep_inj c s1 s2 r1 r2 :
  free_of c s1 -> free_of c s2 ->
  s1 +:+ String c r1 = s2 +:+ String c r2 -> s1 = s2 /\ r1 = r2.
Proof.
  revert s2. induction s1 as [|x s1 IH]; intros [|y s2]; simpl.
  - intros _ _ [= ->]. done.
  - intros _ [Hy _] [= <- _]. done.
  - intros [Hx _] _ [= -> _]. done.
  - intros [_ H1] [_ H2] [= -> E]. destruct (IH s2 H1 H2 E) as [-> ->]. done.
Qed.

Lemma pretty_N_char_free x : pretty_N_char x <> "_"%char.
Proof. unfold pretty_N_char. by repeat case_match. Qed.

Lemma pretty_N_go_free x s : free_of "_" s -> free_of "_" (pretty_N_go x s).
Proof.
  revert s. induction (N.lt_wf_0 x) as [x _ IH]; intros s Hs.
  assert (x = 0 \/ 0 < x)%N as [->|Hx] by lia.
  - by rewrite pretty_N_go_0.
  - rewrite pretty_N_go_step by done. apply IH.
    + by apply N.div_lt.
    + split; [apply pretty_N_char_free | done].
Qed.

Lemma pretty_N_free (x : N) : free_of "_" (pretty x).
Proof.
  unfold pretty, pretty_N. case_decide.
  - simpl. split; [discriminate | done].
  - by apply pretty_N_go_free.
Qed.

Lemma pretty_Z_free (z : Z) : free_of "_" (pretty z).
Proof.
  destruct z as [|q|q]; unfold pretty, pretty_Z.
  - simpl. split; [discriminate | done].
  - apply pretty_N_free.
  - apply free_of_app; [|apply pretty_N_free].
    simpl. split; [discriminate | done].
Qed.

(** The id determines the counter value it was made from. *)
Lemma job_id_inj n t n' t' : job_id n t = job_id n' t' -> n = n'.
Proof.
  unfold job_id. intros [= E].
  apply app_sep_inj in E as [E _]; try apply pretty_Z_free.
  by apply (inj pretty) in E.
Qed.

Lemma ids_ok_fresh w jid job t :
  ids_ok w -> jobs w !! jid = Some job -> jid <> job_id (jobCounter w + 1) t.
Proof.
  intros [_ Hids] Hjob ->.
  destruct (Hids _ _ Hjob) as (n & t' & E & Hn).
  apply job_id_inj in E. lia.
Qed.

Lemma ids_ok_step isWindows ev w : ids_ok w -> ids_ok (step isWindows ev w).
Proof.
  intros [Hc Hids]. destruct ev as [clock call|jid e|jid|now]; simpl.
  - destruct call as [cmd|jid from|jid|]; simpl.
    + destruct (validateCommand cmd); simpl; [|done].
      split; [simpl; lia|]. simpl. intros jid job.
      destruct (decide (job_id (jobCounter w + 1) (clock 0%nat) = jid)) as [<-|Hne].
      * intros _. eexists _, _. split; [done | lia].
      * rewrite lookup_insert_ne by done. intros H.
        destruct (Hids _ _ H) as (n & t & -> & Hn). exists n, t. split; [done | lia].
    + unfold pollJob. by destruct (jobs w !! jid).
    + unfold killJob. destruct (jobs w !! jid) as [job|] eqn:Hjob; simpl; [|done].
      split; [done|]. simpl. intros jid' job'.
      destruct (decide (jid = jid')) as [<-|Hne].
      * intros _. by eapply Hids.
      * rewrite lookup_insert_ne by done. apply Hids.
    + done.
  - unfold deliver. destruct (jobs w !! jid) as [job|] eqn:Hjob; [|done].
    split; [done|]. simpl. intros jid' job'.
    destruct (decide (jid = jid')) as [<-|Hne].
    + intros _. by eapply Hids.
    + rewrite lookup_insert_ne by done. apply Hids.
  - unfold cleanupJob. destruct (jobs w !! jid) as [job|] eqn:Hjob; [|done].
    destruct (negb _); simpl; [|done].
    split; [done|]. simpl. intros jid' job'.
    destruct (decide (jid = jid')) as [<-|Hne].
    + by rewrite lookup_delete_eq.
    + rewrite lookup_delete_ne by done. apply Hids.
  - split; [done|]. intros jid job Hjob. apply (Hids jid job).
    change (jobs (reaper now w) !! jid = Some job) in Hjob.
    rewrite reaper_lookup in Hjob.
    destruct (jobs w !! jid) as [job'|]; [|done].
    by destruct (expired now job').
Qed.

Lemma ids_ok_fold isWindows evs w :
  ids_ok w -> ids_ok (fold_left (fun w ev => step isWindows ev w) evs w).
Proof.
  revert w. induction evs as [|ev evs IH]; simpl; [done|].
  intros w Hw. by apply IH, ids_ok_step.
Qed.

Lemma ids_ok_run isWindows evs : ids_ok (run isWindows evs).
Proof.
  apply ids_ok_fold. split; [done|]. intros jid job. simpl. by rewrite lookup_empty.
Qed.

(** One step of the event loop keeps a job that is not running from
    running: it is removed, left alone, or moved by its own callbacks and
    kill requests. *)
Lemma terminal_world_step isWindows ev w jid job job' :
  ids_ok w ->
  jobs w !! jid = Some job -> terminal (status job) ->
  jobs (step isWindows ev w) !! jid = Some job' -> terminal (status job').
Proof.
  intros Hids Hjob Ht. destruct ev as [clock call|jid0 e|jid0|now]; simpl.
  - destruct call as [cmd|jid0 from|jid0|]; simpl.
    + destruct (validateCommand cmd); simpl; [|congruence].
      rewrite lookup_insert_ne by (symmetry; by eapply ids_ok_fresh).
      congruence.
    + unfold pollJob. destruct (jobs w !! jid0); simpl; congruence.
    + unfold killJob. destruct (jobs w !! jid0) as [job0|] eqn:Hjob0; simpl; [|congruence].
      destruct (decide (jid0 = jid)) as [->|Hne].
      * rewrite lookup_insert_eq. intros [= <-]. right. by right.
      * rewrite lookup_insert_ne by done. congruence.
    + congruence.
  - unfold deliver. destruct (jobs w !! jid0) as [job0|] eqn:Hjob0; [|simpl; congruence].
    simpl. destruct (decide (jid0 = jid)) as [->|Hne].
    + rewrite lookup_insert_eq. intros [= <-].
      assert (job0 = job) as -> by congruence. by apply terminal_step.
    + rewrite lookup_insert_ne by done. congruence.
  - unfold cleanupJob. destruct (jobs w !! jid0) as [job0|] eqn:Hjob0; [|simpl; congruence].
    destruct (negb _); simpl; [|congruence].
    destruct (decide (jid0 = jid)) as [->|Hne].
    + by rewrite lookup_delete_eq.
    + rewrite lookup_delete_ne by done. congruence.
  - intros Hjob'. change (jobs (reaper now w) !! jid = Some job') in Hjob'.
    rewrite reaper_lookup, Hjob in Hjob'.
    destruct (expired now job); congruence.
Qed.

(** A job that has left the registry does not come back. *)
Lemma gone_world_step isWindows ev w n t :
  ids_ok w -> n <= jobCounter w ->
  jobs w !! job_id n t = None ->
  jobs (step isWindows ev w) !! job_id n t = None.
Proof.
  intros Hids Hn Hnone. destruct ev as [clock call|jid0 e|jid0|now]; simpl.
  - destruct call as [cmd|jid0 from|jid0|]; simpl.
    + destruct (validateCommand cmd); simpl; [|done].
      rewrite lookup_insert_ne; [done|].
      intros E. apply job_id_inj in E. lia.
    + unfold pollJob. by destruct (jobs w !! jid0).
    + unfold killJob. destruct (jobs w !! jid0) as [job0|] eqn:Hjob0; simpl; [|done].
      rewrite lookup_insert_ne; [done|]. congruence.
    + done.
  - unfold deliver. destruct (jobs w !! jid0) as [job0|] eqn:Hjob0; [|done].
    simpl. rewrite lookup_insert_ne; [done|]. congruence.
  - unfold cleanupJob. destruct (jobs w !! jid0) as [job0|] eqn:Hjob0; [|done].
    destruct (negb _); simpl; [|done].
    destruct (decide (jid0 = job_id n t)) as [->|Hne].
    + by rewrite lookup_delete_eq.
    + by rewrite lookup_delete_ne.
  - change (jobs (reaper now w) !! job_id n t = None).
    by rewrite reaper_lookup, Hnone.
Qed.

Lemma jobCounter_step isWindows ev w : jobCounter w <= jobCounter (step isWindows ev w).
Proof.
  destruct ev as [clock call|jid0 e|jid0|now]; simpl.
  - destruct call as [cmd|jid0 from|jid0|]; simpl.
    + destruct (validateCommand cmd); simpl; lia.
    + unfold pollJob. destruct (jobs w !! jid0); simpl; lia.
    + unfold killJob. destruct (jobs w !! jid0); simpl; lia.
    + lia.
  - unfold deliver. destruct (jobs w !! jid0); simpl; lia.
  - unfold cleanupJob. destruct (jobs w !! jid0); [|simpl; lia].
    destruct (negb _); simpl; lia.
  - lia.
Qed.

(** Once a job is not running, it is not running in any later state of the
    event loop in which it still is registered. *)
Lemma terminal_world_fold isWindows evs w jid job job' :
  ids_ok w ->
  jobs w !! jid = Some job -> terminal (status job) ->
  jobs (fold_left (fun w ev => step isWindows ev w) evs w) !! jid = Some job' ->
  terminal (status job').
Proof.
  revert w job. induction evs as [|ev evs IH]; simpl; intros w job Hids Hjob Ht.
  - congruence.
  - destruct (jobs (step isWindows ev w) !! jid) as [job1|] eqn:H1.
    + apply (IH _ job1); [by apply ids_ok_step | done |].
      by eapply terminal_world_step.
    + intros Hlater. exfalso.
      destruct (proj2 Hids _ _ Hjob) as (n & t & -> & Hn).
      assert (Hgone : forall evs w, ids_ok w -> n <= jobCounter w ->
                jobs w !! job_id n t = None ->
                jobs (fold_left (fun w ev => step isWindows ev w) evs w) !! job_id n t = None).
      { clear. induction evs as [|ev evs IH]; simpl; [done|].
        intros w Hids Hn Hnone. apply IH.
        - by apply ids_ok_step.
        - pose proof (jobCounter_step isWindows ev w). lia.
        - by apply gone_world_step. }
      rewrite Hgone in Hlater; [done | by apply ids_ok_step | | done].
      pose proof (jobCounter_step isWindows ev w). lia.
Qed.

Lemma deliver_lookup jid e w job :
  jobs w !! jid = Some job ->
  jobs (deliver jid e w) !! jid = Some (job_step e job).
Proof.
  intros H. unfold deliver. rewrite H. simpl. apply lookup_insert_eq.
Qed.

Lemma run_app isWindows evs later :
  run isWindows (evs ++ later)
  = fold_left (fun w ev => step isWindows ev w) later (run isWindows evs).
Proof. unfold run. apply fold_left_app. Qed.

(** C1, amended: for every job in the registry after any sequence of
    requests, callbacks, cleanups and sweeps: while the job runs it has no
    exit code; once its status is one of done, error and killed, the status
    is one of these three in every later state of the event loop in which
    the job is registered, so the job never runs again; within the three
    the status is overwritten: a kill request sets killed, a process close
    sets done and stores the reported code as exit code, a process error
    sets error, whatever the status was; nothing but a process close writes
    the exit code. *)
Theorem status_terminal_closed (isWindows : bool) (evs later : list Event)
    (jid : string) (job : Job) :
  jobs (run isWindows evs) !! jid = Some job ->
  let w := run isWindows evs in
  (status job = running -> exitCode job = None) /\
  (terminal (status job) ->
     forall job', jobs (run isWindows (evs ++ later)) !! jid = Some job' ->
                  terminal (status job')) /\
  (jobs (snd (killJob jid w)) !! jid = Some (kill_job job) /\
   status (kill_job job) = killed /\
   exitCode (kill_job job) = exitCode job) /\
  (forall code,
     jobs (deliver jid (Close code) w) !! jid = Some (on_close code job) /\
     status (on_close code job) = done /\
     exitCode (on_close code job) = code) /\
  (forall message,
     jobs (deliver jid (ProcError message) w) !! jid = Some (on_error message job) /\
     status (on_error message job) = error /\
     exitCode (on_error message job) = exitCode job) /\
  (forall now text,
     exitCode (on_stdout_data now text job) = exitCode job /\
     exitCode (on_stderr_data now text job) = exitCode job /\
     exitCode (on_kill_timeout job) = exitCode job).
Proof.
  intros Hjob w.
  assert (Hrun : running_ok job).
  { apply (all_jobs_run running_ok running_ok_new running_ok_step
             isWindows evs jid job Hjob). }
  split; [intros Hr; apply (Hrun Hr)|].
  split.
  { intros Ht job'. rewrite run_app.
    apply (terminal_world_fold isWindows later _ jid job job');
      [apply ids_ok_run | exact Hjob | exact Ht]. }
  split.
  { split; [by apply killJob_found|]. split; [done|].
    apply (signal_if_alive_fields SIGTERM job). }
  split.
  { intros code. split; [apply (deliver_lookup jid (Close code) w job Hjob) | done]. }
  split.
  { intros message.
    split; [apply (deliver_lookup jid (ProcError message) w job Hjob) | done]. }
  intros now text. split; [done|]. split; [done|].
  apply (signal_if_alive_fields SIGKILL job).
Qed.

(** The witness: the sample job is killed while it runs; after the close
    of its process, a late chunk and a sweep it is registered and not
    running. *)
Lemma status_terminal_closed_witness :
  exists job',
    jobs (run false (evs_killed ++ evs_later)) !! sample_id = Some job' /\
    terminal (status job').
Proof.
  pose (job := job_run [StdoutData 1005 abc_lines; Kill]
                       (new_job false sample_id 1000 1000 "ls -la")).
  assert (Hjob : jobs (run false evs_killed) !! sample_id = Some job)
    by (vm_compute; reflexivity).
  destruct (status_terminal_closed false evs_killed evs_later sample_id job Hjob)
    as (_ & Hclosed & _).
  eexists. split; [vm_compute; reflexivity|].
  eapply Hclosed; [right; right; reflexivity | vm_compute; reflexivity].
Defined.

(** ** Command guard *)

(** *** Character classes *)

Ltac by_cases_on_char c :=
  destruct c as [[] [] [] [] [] [] [] []]; vm_compute; congruence.

Lemma space_not_slash c : Js.isWhiteSpace c = true -> Js.ci "/" c = false.
Proof. by_cases_on_char c. Qed.

Lemma space_not_quote c : Js.isWhiteSpace c = true -> Js.quote c = false.
Proof. by_cases_on_char c. Qed.

Lemma space_not_word c : Js.isWhiteSpace c = true -> Js.isWordChar c = false.
Proof. by_cases_on_char c. Qed.

Lemma quote_not_word c : Js.quote c = true -> Js.isWordChar c = false.
Proof. by_cases_on_char c. Qed.

(** *** The first token *)

Lemma split_ws_nonempty s : Js.split_ws s <> [].
Proof.
  induction s as [|c s IH]; simpl; [done|].
  destruct (Js.isWhiteSpace c).
  - destruct s as [|c' s']; [done|]. by destruct (Js.isWhiteSpace c').
  - by destruct (Js.split_ws s).
Qed.

Lemma first_cons_head c l : l <> [] -> Js.first (Js.cons_head c l) = String c (Js.first l).
Proof. by destruct l. Qed.

Lemma first_split_ws s : Js.first (Js.split_ws s) = take_token s.
Proof.
  induction s as [|c s IH]; [done|].
  cbn [Js.split_ws take_token].
  destruct (Js.isWhiteSpace c).
  - destruct s as [|c' s']; [done|].
    destruct (Js.isWhiteSpace c') eqn:Hc'; [|done].
    rewrite IH. cbn [take_token]. by rewrite Hc'.
  - rewrite first_cons_head by apply split_ws_nonempty. by rewrite IH.
Qed.

Lemma trimEnd_cons c s :
  Js.isWhiteSpace c = false -> Js.trimEnd (String c s) = String c (Js.trimEnd s).
Proof. intros Hc. cbn [Js.trimEnd]. rewrite Hc. by destruct (Js.trimEnd s). Qed.

Lemma take_token_trimEnd s : take_token (Js.trimEnd s) = take_token s.
Proof.
  induction s as [|c s IH]; [done|].
  destruct (Js.isWhiteSpace c) eqn:Hc.
  - cbn [Js.trimEnd take_token]. rewrite Hc.
    destruct (Js.trimEnd s); cbn [take_token]; by rewrite ?Hc.
  - rewrite trimEnd_cons by done. cbn [take_token]. by rewrite Hc, IH.
Qed.

(** [cmd.trim().split(/\s+/)[0]] is the first token. *)
Lemma base_first_token cmd :
  Js.first (Js.split_ws (Js.trim cmd)) = first_token cmd.
Proof.
  unfold Js.trim, first_token. by rewrite first_split_ws, take_token_trimEnd.
Qed.

(** *** The pattern *)

(** A greedy run of white space gives nothing back when what follows the
    run cannot start with white space. *)
Lemma star_spaces {R} (k : string -> option R) s :
  (forall c s', Js.isWhiteSpace c = true -> k (String c s') = None) ->
  Js.star Js.isWhiteSpace s k = k (Js.trimStart s).
Proof.
  intros Hk. induction s as [|c s IH]; [done|].
  cbn [Js.star Js.trimStart].
  destruct (Js.isWhiteSpace c) eqn:Hc; [|done].
  rewrite IH. destruct (k (Js.trimStart s)) eqn:E; [done|].
  by apply Hk.
Qed.

(** A greedy run of word characters is the longest one when what follows
    accepts there. *)
Lemma star_word {R} (k : string -> option R) s r :
  k (drop_word s) = Some r -> Js.star Js.isWordChar s k = Some r.
Proof.
  induction s as [|c s IH]; [done|].
  cbn [Js.star drop_word].
  destruct (Js.isWordChar c); [|done].
  intros H. by rewrite (IH H).
Qed.

Lemma length_drop_word s : (String.length (drop_word s) <= String.length s)%nat.
Proof.
  induction s as [|c s IH]; [done|].
  cbn [drop_word]. destruct (Js.isWordChar c); simpl in *; lia.
Qed.

Lemma consumed_word s : Js.consumed s (drop_word s) = take_word s.
Proof.
  unfold Js.consumed. induction s as [|c s IH]; [done|].
  cbn [drop_word take_word]. destruct (Js.isWordChar c).
  - pose proof (length_drop_word s).
    replace (String.length (String c s) - String.length (drop_word s))%nat
      with (S (String.length s - String.length (drop_word s)))
      by (simpl; lia).
    simpl. by rewrite IH.
  - by rewrite Nat.sub_diag.
Qed.

Lemma consumed_word_cons c s :
  Js.isWordChar c = true ->
  Js.consumed (String c s) (drop_word s) = String c (take_word s).
Proof.
  intros Hc.
  assert (drop_word (String c s) = drop_word s) as <-
    by (cbn [drop_word]; by rewrite Hc).
  rewrite consumed_word. cbn [take_word]. by rewrite Hc.
Qed.

Lemma match_word s cap :
  Js.rmatch re_word s cap accept = Some <$> word_at s.
Proof.
  destruct s as [|c s]; [done|].
  cbn [re_word Js.rmatch word_at].
  destruct (Js.isWordChar c) eqn:Hc; [|done].
  erewrite star_word; [|reflexivity].
  unfold accept. simpl. by rewrite consumed_word_cons.
Qed.

Lemma word_at_space c s : Js.isWhiteSpace c = true -> word_at (String c s) = None.
Proof. intros Hc. simpl. by rewrite (space_not_word c Hc). Qed.

Lemma match_quoted s cap :
  Js.rmatch re_quoted s cap accept = Some <$> quoted_word_at s.
Proof.
  unfold re_quoted. cbn [Js.rmatch].
  destruct s as [|q s].
  - by rewrite match_word.
  - cbn [quoted_word_at]. destruct (Js.quote q) eqn:Hq.
    + rewrite match_word. destruct (word_at s) as [w|]; [done|].
      rewrite match_word. simpl. by rewrite (quote_not_word q Hq).
    + by rewrite match_word.
Qed.

Lemma quoted_word_at_space c s :
  Js.isWhiteSpace c = true -> quoted_word_at (String c s) = None.
Proof.
  intros Hc. cbn [quoted_word_at].
  rewrite (space_not_quote c Hc). by apply word_at_space.
Qed.

Lemma match_flag s cap :
  Js.rmatch re_flag s cap accept = Some <$> flag_at s.
Proof.
  unfold re_flag. cbn [Js.rmatch].
  destruct s as [|a [|b s]]; cbn [flag_at]; [done| by destruct (Js.ci "/" a) |].
  destruct (Js.ci "/" a); [|done].
  destruct (Js.ci "c" b); [|done].
  cbn [andb].
  destruct s as [|c s]; [done|].
  cbn [after_spaces].
  destruct (Js.isWhiteSpace c); [|done].
  rewrite star_spaces.
  - apply match_quoted.
  - intros c' s' Hc'. rewrite match_quoted. by rewrite quoted_word_at_space.
Qed.

Lemma flag_at_space c s : Js.isWhiteSpace c = true -> flag_at (String c s) = None.
Proof.
  intros Hc. cbn [flag_at]. rewrite (space_not_slash c Hc). by destruct s.
Qed.

Lemma wrapper_re_tail :
  wrapper_re =
  Js.RSeq (Js.RChar (Js.ci "c")) (Js.RSeq (Js.RChar (Js.ci "m"))
 (Js.RSeq (Js.RChar (Js.ci "d")) (Js.RSeq (Js.RPlus Js.isWhiteSpace) re_flag))).
Proof. reflexivity. Qed.

Lemma match_wrapper s cap :
  Js.rmatch wrapper_re s cap accept = Some <$> wrapper_at s.
Proof.
  rewrite wrapper_re_tail. cbn [Js.rmatch].
  destruct s as [|a [|b [|c s]]]; cbn [wrapper_at];
    [done | by destruct (Js.ci "c" a)
          | by destruct (Js.ci "c" a), (Js.ci "m" b) |].
  destruct (Js.ci "c" a); [|done].
  destruct (Js.ci "m" b); [|done].
  destruct (Js.ci "d" c); [|done].
  cbn [andb].
  destruct s as [|x s]; [done|].
  cbn [after_spaces].
  destruct (Js.isWhiteSpace x); [|done].
  rewrite star_spaces.
  - apply match_flag.
  - intros c' s' Hc'. rewrite match_flag. by rewrite flag_at_space.
Qed.

(** The search of the pattern through the command is the scanner; group 1
    always takes part in a match. *)
Lemma exec_wrapper s : Js.exec wrapper_re s = Some <$> wrapped_word s.
Proof.
  induction s as [|c s IH].
  - done.
  - cbn [Js.exec wrapped_word]. fold accept. rewrite match_wrapper.
    destruct (wrapper_at (String c s)); [done|]. exact IH.
Qed.

Lemma exec_wrapper_group s : Js.exec wrapper_re s <> Some None.
Proof. rewrite exec_wrapper. by destruct (wrapped_word s). Qed.

(** *** The guard *)

Lemma includes_In l x : Js.includes l x = true <-> In x l.
Proof.
  unfold Js.includes. rewrite existsb_exists. split.
  - intros (y & Hy & E). apply String.eqb_eq in E. by subst.
  - intros H. exists x. split; [done | apply String.eqb_refl].
Qed.

Lemma validateCommand_inspected cmd :
  validateCommand cmd = negb (Js.includes BLACKLISTED (inspected cmd)).
Proof.
  unfold validateCommand, inspected.
  rewrite base_first_token, exec_wrapper.
  destruct (String.eqb _ "cmd"); [|done].
  by destruct (wrapped_word cmd).
Qed.

(** *** The document's reading and the guard, on strings of the model

    For strings of code units below 256, every command the guard of the
    design document rejects is rejected by [validateCommand]; the
    counterexample shows that the converse fails.  Beyond these strings the
    containment fails too: the Kelvin sign, code unit 8490, lower-cases to k
    and is no word character, so a third token spelt with it can lower-case
    to a denylisted word of which the pattern captures a part only. *)

Lemma lower_ci a x :
  (x = "c" \/ x = "m" \/ x = "d" \/ x = "/")%char ->
  Js.toLowerCaseChar a = x -> Js.ci x a = true.
Proof.
  intros [-> | [-> | [-> | ->]]]; by_cases_on_char a.
Qed.

Lemma lower_word_char a : Js.isWordChar (Js.toLowerCaseChar a) = Js.isWordChar a.
Proof. destruct a as [[] [] [] [] [] [] [] []]; vm_compute; reflexivity. Qed.

Lemma space_not_c c : Js.isWhiteSpace c = true -> Js.ci "c" c = false.
Proof. by_cases_on_char c. Qed.

Lemma all_word_lower s : all_word (Js.toLowerCase s) = all_word s.
Proof.
  induction s as [|c s IH]; [done|].
  cbn [Js.toLowerCase all_word]. by rewrite lower_word_char, IH.
Qed.

Lemma denylist_words x : In x BLACKLISTED -> all_word x = true /\ x <> "".
Proof.
  unfold BLACKLISTED. simpl.
  intros H. repeat (destruct H as [<-|H]; [split; [vm_compute; reflexivity | discriminate]|]).
  destruct H.
Qed.

Lemma take_drop_token s : s = take_token s +:+ drop_token s.
Proof.
  induction s as [|c s IH]; [done|].
  cbn [take_token drop_token]. destruct (Js.isWhiteSpace c); [done|].
  change (String c s = String c (take_token s +:+ drop_token s)). by f_equal.
Qed.

Lemma drop_token_end s : at_token_end (drop_token s).
Proof.
  induction s as [|c s IH]; [done|].
  cbn [drop_token]. by destruct (Js.isWhiteSpace c) eqn:Hc.
Qed.

Lemma first_token_view s :
  Js.trimStart s = first_token s +:+ after_first_token s /\
  at_token_end (after_first_token s).
Proof. split; [apply take_drop_token | apply drop_token_end]. Qed.

(** After a token, white space followed by a further token is what
    [after_spaces] expects. *)
Lemma after_spaces_token {A} (next : string -> option A) s :
  at_token_end s -> first_token s <> "" ->
  after_spaces next s = next (Js.trimStart s).
Proof.
  destruct s as [|c s]; [done|].
  cbn [at_token_end after_spaces Js.trimStart]. by intros ->.
Qed.

Lemma take_word_token t r :
  all_word t = true -> at_token_end r -> take_word (t +:+ r) = t.
Proof.
  intros Ht Hr. induction t as [|c t IH].
  - destruct r as [|x r]; [done|]. simpl in *. by rewrite (space_not_word x Hr).
  - cbn [all_word] in Ht. apply andb_true_iff in Ht as [Hc Ht].
    simpl. by rewrite Hc, (IH Ht).
Qed.

Lemma quoted_word_token t r :
  In (Js.toLowerCase t) BLACKLISTED -> at_token_end r ->
  quoted_word_at (t +:+ r) = Some t.
Proof.
  intros Hin Hr. apply denylist_words in Hin as [Hw Hne].
  rewrite all_word_lower in Hw.
  destruct t as [|q t]; [done|].
  cbn [all_word] in Hw. apply andb_true_iff in Hw as [Hq Hw].
  change (String q t +:+ r) with (String q (t +:+ r)).
  cbn [quoted_word_at].
  destruct (Js.quote q) eqn:Hquote.
  { apply quote_not_word in Hquote. congruence. }
  cbn [word_at]. by rewrite Hq, take_word_token.
Qed.

Lemma lower_cmd t :
  Js.toLowerCase t = "cmd" ->
  exists a b c, t = String a (String b (String c "")) /\
                Js.ci "c" a = true /\ Js.ci "m" b = true /\ Js.ci "d" c = true.
Proof.
  destruct t as [|a [|b [|c [|d t]]]]; try discriminate.
  cbn [Js.toLowerCase]. intros [= Ha Hb Hc].
  exists a, b, c. repeat split; apply lower_ci; auto.
Qed.

Lemma lower_flag t :
  Js.toLowerCase t = "/c" ->
  exists a b, t = String a (String b "") /\
              Js.ci "/" a = true /\ Js.ci "c" b = true.
Proof.
  destruct t as [|a [|b [|c t]]]; try discriminate.
  cbn [Js.toLowerCase]. intros [= Ha Hb].
  exists a, b. repeat split; apply lower_ci; auto.
Qed.

Lemma wrapped_word_trimStart s : wrapped_word s = wrapped_word (Js.trimStart s).
Proof.
  induction s as [|c s IH]; [done|].
  cbn [Js.trimStart]. destruct (Js.isWhiteSpace c) eqn:Hc; [|done].
  rewrite <- IH. cbn [wrapped_word wrapper_at].
  rewrite (space_not_c c Hc). by destruct s as [|? [|? ?]].
Qed.

Lemma lower_nonempty t x : Js.toLowerCase t = x -> x <> "" -> t <> "".
Proof. intros <- H ->. by apply H. Qed.

Lemma stated_reject_sound cmd :
  stated_validate cmd = false -> validateCommand cmd = false.
Proof.
  unfold stated_validate. rewrite validateCommand_inspected, !negb_false_iff, !includes_In.
  unfold stated_inspected, inspected.
  destruct (String.eqb (Js.toLowerCase (first_token cmd)) "cmd") eqn:E1; [|done].
  apply String.eqb_eq in E1.
  destruct (String.eqb (Js.toLowerCase (first_token (after_first_token cmd))) "/c") eqn:E2.
  2:{ cbn [andb]. rewrite E1. intros H. exfalso.
      vm_compute in H. intuition discriminate. }
  apply String.eqb_eq in E2. cbn [andb]. intros Hin.
  destruct (first_token_view cmd) as [V1 End1].
  destruct (first_token_view (after_first_token cmd)) as [V2 End2].
  destruct (first_token_view (after_first_token (after_first_token cmd))) as [V3 End3].
  destruct (lower_cmd _ E1) as (a & b & c & T1 & Ha & Hb & Hc).
  destruct (lower_flag _ E2) as (sl & c2 & T2 & Hsl & Hc2).
  assert (Hword : wrapped_word cmd
                  = Some (first_token (after_first_token (after_first_token cmd)))).
  { rewrite wrapped_word_trimStart, V1, T1.
    change (wrapped_word (String a (String b (String c (after_first_token cmd))))
            = Some (first_token (after_first_token (after_first_token cmd)))).
    cbn [wrapped_word wrapper_at]. rewrite Ha, Hb, Hc. cbn [andb].
    rewrite after_spaces_token; [|done | by rewrite T2].
    rewrite V2, T2.
    change (String sl (String c2 "") +:+ ?r) with (String sl (String c2 r)).
    cbn [flag_at]. rewrite Hsl, Hc2. cbn [andb].
    rewrite after_spaces_token; [|done|].
    - rewrite V3. by rewrite quoted_word_token.
    - apply denylist_words in Hin as [_ Hne]. by eapply lower_nonempty. }
  by rewrite Hword.
Qed.

(** C5, as stated, fails: the guard rejects a wrapped command whose first
    token is not in the denylist when the token starts with a denylisted
    word, here del.exe; and it rejects a command whose first token is cmd
    without the flag /c when the pattern occurs further to the right. *)
Lemma guard_counterexample :
  stated_inspected "cmd /c del.exe foo" = "del.exe" /\
  ~ In "del.exe" BLACKLISTED /\
  stated_validate "cmd /c del.exe foo" = true /\
  validateCommand "cmd /c del.exe foo" = false /\
  stated_inspected "cmd /k dir cmd /c del" = "cmd" /\
  stated_validate "cmd /k dir cmd /c del" = true /\
  validateCommand "cmd /k dir cmd /c del" = false.
Proof.
  repeat split; try (vm_compute; reflexivity).
  vm_compute. intuition discriminate.
Qed.

(** C5, amended: the guard returns false for rm -rf /, true for ls -la and
    false for cmd /c del foo; it rejects exactly the commands whose
    inspected token is in the denylist, where the inspected token is the
    first white-space-delimited token, lower-cased, unless that token is cmd
    and somewhere in the command stand cmd, white space, /c (both in any
    case), white space, at most one quote and a word character: then it is
    the longest run of word characters at the first such place,
    lower-cased. *)
Theorem guard_exact :
  validateCommand "rm -rf /" = false /\
  validateCommand "ls -la" = true /\
  validateCommand "cmd /c del foo" = false /\
  (forall cmd, validateCommand cmd = false <-> In (inspected cmd) BLACKLISTED).
Proof.
  split; [reflexivity|]. split; [reflexivity|]. split; [reflexivity|].
  intros cmd. rewrite validateCommand_inspected, negb_false_iff. apply includes_In.
Qed.

(** * Further properties of the engine *)

(** ** Polling by line offset *)

Lemma join_cons sep x xs :
  xs <> [] -> Js.join sep (x :: xs) = x +:+ sep +:+ Js.join sep xs.
Proof. by destruct xs. Qed.

Lemma join_cons_head sep c l :
  l <> [] -> Js.join sep (Js.cons_head c l) = String c (Js.join sep l).
Proof. destruct l as [|x [|y l]]; done. Qed.

(** Joining what was split at line feeds gives the string back. *)
Lemma join_split s : Js.join nl (Js.split LF s) = s.
Proof.
  induction s as [|c s IH]; [done|].
  cbn [Js.split]. destruct (Ascii.eqb c LF) eqn:Hc.
  - apply Ascii.eqb_eq in Hc as ->.
    rewrite join_cons by apply split_nonempty. by rewrite IH.
  - rewrite join_cons_head by apply split_nonempty. by rewrite IH.
Qed.

Lemma drop_cons_head {c} {l : list string} k :
  l <> [] -> drop (S k) (Js.cons_head c l) = drop (S k) l.
Proof. by destruct l. Qed.

(** The segments from the [k]-th on, joined, are what follows the [k]-th
    line feed. *)
Lemma split_drop_suffix s k :
  (0 < k < length (Js.split LF s))%nat ->
  exists head,
    count_LF head = Z.of_nat k - 1 /\
    s = head +:+ nl +:+ Js.join nl (drop k (Js.split LF s)).
Proof.
  revert k. induction s as [|c s IH]; intros k Hk; [simpl in Hk; lia|].
  cbn [Js.split] in *. destruct k as [|k]; [lia|].
  destruct (Ascii.eqb c LF) eqn:Hc.
  - apply Ascii.eqb_eq in Hc as ->. cbn [drop length] in *.
    destruct k as [|k].
    + exists "". split; [done|]. unfold drop. by rewrite join_split.
    + destruct (IH (S k)) as (head & Hcount & Hs); [lia|].
      exists (String LF head). split.
      * cbn [count_LF]. rewrite Hcount. simpl. lia.
      * rewrite Hs at 1. reflexivity.
  - rewrite length_cons_head in Hk by apply split_nonempty.
    rewrite drop_cons_head by apply split_nonempty.
    destruct (IH (S k) Hk) as (head & Hcount & Hs).
    exists (String c head). split.
    + cbn [count_LF]. rewrite Hc. lia.
    + rewrite Hs at 1. reflexivity.
Qed.

Lemma slice_nonneg {A} (k : Z) (l : list A) :
  0 <= k -> Js.slice k l = drop (Z.to_nat (Z.min k (Z.of_nat (length l)))) l.
Proof.
  intros Hk. unfold Js.slice. destruct (k <? 0) eqn:E; [|done].
  apply Z.ltb_lt in E. lia.
Qed.

(** X1: a poll from line 0 of a registered job returns the whole stdout
    buffer: splitting at line feeds and joining again loses nothing. *)
Theorem poll_from_zero (t1 t2 : Z) (jid : string) (w : World) (job : Job) :
  jobs w !! jid = Some job ->
  exists info,
    fst (pollJob t1 t2 jid 0 w) = PollOk info /\
    output info = stdout job /\
    fromLine info = 0.
Proof.
  intros Hjob. exists (poll_view t1 t2 0 job).
  rewrite (pollJob_found _ _ _ _ _ _ Hjob). split; [done|].
  split; [|done]. simpl. rewrite slice_nonneg by lia.
  replace (Z.to_nat _) with 0%nat by lia. apply join_split.
Qed.

Lemma poll_from_zero_witness :
  exists info,
    fst (pollJob 2000 2000 sample_id 0 w_abc) = PollOk info /\
    output info = abc_lines.
Proof.
  destruct (poll_from_zero 2000 2000 sample_id w_abc
              (job_step (StdoutData 1005 abc_lines)
                 (new_job false sample_id 1000 1000 "ls -la")))
    as (info & Hp & Hout & _).
  { vm_compute; reflexivity. }
  exists info. split; [exact Hp | exact Hout].
Defined.

(** X2: for an offset [k] with [0 < k < totalLines], the output of a poll
    from line [k] is exactly what follows the [k]-th line feed of the
    stdout buffer: the buffer is a head with [k - 1] line feeds, a line
    feed, and the output. *)
Theorem poll_suffix_after_lines (t1 t2 : Z) (jid : string) (k : Z) (w : World)
    (job : Job) :
  jobs w !! jid = Some job ->
  0 < k < totalLines (poll_view t1 t2 k job) ->
  exists info head,
    fst (pollJob t1 t2 jid k w) = PollOk info /\
    count_LF head = k - 1 /\
    stdout job = head +:+ nl +:+ output info.
Proof.
  intros Hjob Hk. simpl in Hk.
  destruct (split_drop_suffix (stdout job) (Z.to_nat k)) as (head & Hcount & Hs); [lia|].
  exists (poll_view t1 t2 k job), head.
  rewrite (pollJob_found _ _ _ _ _ _ Hjob). split; [done|].
  split; [lia|]. simpl. rewrite slice_nonneg by lia.
  replace (Z.min k _) with k by lia. exact Hs.
Qed.

Lemma poll_suffix_after_lines_witness :
  exists info head,
    fst (pollJob 2000 2000 sample_id 2 w_abc) = PollOk info /\
    count_LF head = 1 /\
    abc_lines = head +:+ nl +:+ output info.
Proof.
  destruct (poll_suffix_after_lines 2000 2000 sample_id 2 w_abc
              (job_step (StdoutData 1005 abc_lines)
                 (new_job false sample_id 1000 1000 "ls -la")))
    as (info & head & Hp & Hc & Hs).
  { vm_compute; reflexivity. }
  { vm_compute. split; reflexivity. }
  exists info, head. split; [exact Hp|]. split; [exact Hc | exact Hs].
Defined.

(** X3: a poll from a line at or beyond [totalLines] returns the empty
    output, with the job's status and line count, and no error. *)
Theorem poll_past_end (t1 t2 : Z) (jid : string) (k : Z) (w : World) (job : Job) :
  jobs w !! jid = Some job ->
  totalLines (poll_view t1 t2 k job) <= k ->
  exists info,
    fst (pollJob t1 t2 jid k w) = PollOk info /\
    output info = "" /\
    totalLines info = count_LF (stdout job) + 1 /\
    p_status info = status job.
Proof.
  intros Hjob Hk. exists (poll_view t1 t2 k job).
  rewrite (pollJob_found _ _ _ _ _ _ Hjob). split; [done|].
  simpl in *. split; [|split; [apply split_length | done]].
  rewrite slice_nonneg by lia.
  replace (Z.min k _) with (Z.of_nat (length (Js.split LF (stdout job)))) by lia.
  rewrite Nat2Z.id, drop_all. done.
Qed.

Lemma poll_past_end_witness :
  exists info,
    fst (pollJob 2000 2000 sample_id 4 w_abc) = PollOk info /\ output info = "".
Proof.
  destruct (poll_past_end 2000 2000 sample_id 4 w_abc
              (job_step (StdoutData 1005 abc_lines)
                 (new_job false sample_id 1000 1000 "ls -la")))
    as (info & Hp & Hout & _).
  { vm_compute; reflexivity. }
  { vm_compute. discriminate. }
  exists info. split; [exact Hp | exact Hout].
Defined.

(** X4: a negative integral offset counts from the end: for an integer
    [k > 0], a poll from [-k] returns what a poll from [totalLines - k]
    returns, and the whole buffer when [k] is at least [totalLines].  (An
    offset with a fraction is truncated toward zero by [slice] first; it is
    not an input of this model.) *)
Theorem poll_negative_offset (t1 t2 : Z) (jid : string) (k : Z) (w : World)
    (job : Job) :
  jobs w !! jid = Some job ->
  0 < k ->
  let total := count_LF (stdout job) + 1 in
  exists info info',
    fst (pollJob t1 t2 jid (- k) w) = PollOk info /\
    fst (pollJob t1 t2 jid (Z.max (total - k) 0) w) = PollOk info' /\
    output info = output info' /\
    (total <= k -> output info = stdout job).
Proof.
  intros Hjob Hk total.
  exists (poll_view t1 t2 (- k) job), (poll_view t1 t2 (Z.max (total - k) 0) job).
  rewrite !(pollJob_found _ _ _ _ _ _ Hjob). split; [done|]. split; [done|].
  assert (Hlen : Z.of_nat (length (Js.split LF (stdout job))) = total)
    by apply split_length.
  assert (Hneg : Js.slice (- k) (Js.split LF (stdout job))
                 = drop (Z.to_nat (Z.max (total - k) 0)) (Js.split LF (stdout job))).
  { unfold Js.slice. destruct (- k <? 0) eqn:E; [|apply Z.ltb_ge in E; lia].
    rewrite Hlen. f_equal; lia. }
  simpl. rewrite Hneg. split.
  - rewrite slice_nonneg by lia. rewrite Hlen. do 2 f_equal; lia.
  - intros Hall. replace (Z.to_nat _) with 0%nat by lia. apply join_split.
Qed.

Lemma poll_negative_offset_witness :
  exists info,
    fst (pollJob 2000 2000 sample_id (- 2) w_abc) = PollOk info /\
    output info = "c" +:+ nl.
Proof.
  destruct (poll_negative_offset 2000 2000 sample_id 2 w_abc
              (job_step (StdoutData 1005 abc_lines)
                 (new_job false sample_id 1000 1000 "ls -la")))
    as (info & info' & Hp & Hp' & Hout & _).
  { vm_compute; reflexivity. }
  { lia. }
  exists info. split; [exact Hp|]. rewrite Hout.
  vm_compute in Hp'. injection Hp' as <-. reflexivity.
Defined.

(** ** How a registered job evolves *)

Lemma job_run_cons e es job : job_run (e :: es) job = job_run es (job_step e job).
Proof. reflexivity. Qed.

Lemma job_run_snoc es e job : job_run (es ++ [e]) job = job_step e (job_run es job).
Proof. unfold job_run. by rewrite fold_left_app. Qed.

(** One event of the loop leaves a registered job alone, removes it, or
    applies one of the job's own events to it. *)
Lemma world_step_evolves isWindows ev w jid job job' :
  ids_ok w ->
  jobs w !! jid = Some job ->
  jobs (step isWindows ev w) !! jid = Some job' ->
  job' = job \/ exists e, job' = job_step e job.
Proof.
  intros Hids Hjob. destruct ev as [clock call|jid0 e|jid0|now]; simpl.
  - destruct call as [cmd|jid0 from|jid0|]; simpl.
    + destruct (validateCommand cmd); simpl; [|left; congruence].
      rewrite lookup_insert_ne by (symmetry; by eapply ids_ok_fresh).
      left; congruence.
    + unfold pollJob. destruct (jobs w !! jid0); simpl; left; congruence.
    + unfold killJob. destruct (jobs w !! jid0) as [job0|] eqn:Hjob0; simpl;
        [|left; congruence].
      destruct (decide (jid0 = jid)) as [->|Hne].
      * rewrite lookup_insert_eq. intros [= <-]. right. exists Kill.
        simpl. congruence.
      * rewrite lookup_insert_ne by done. left; congruence.
    + left; congruence.
  - unfold deliver. destruct (jobs w !! jid0) as [job0|] eqn:Hjob0;
      [|simpl; left; congruence].
    simpl. destruct (decide (jid0 = jid)) as [->|Hne].
    + rewrite lookup_insert_eq. intros [= <-]. right. exists e. congruence.
    + rewrite lookup_insert_ne by done. left; congruence.
  - unfold cleanupJob. destruct (jobs w !! jid0) as [job0|] eqn:Hjob0;
      [|simpl; left; congruence].
    destruct (negb _); simpl; [|left; congruence].
    destruct (decide (jid0 = jid)) as [->|Hne].
    + by rewrite lookup_delete_eq.
    + rewrite lookup_delete_ne by done. left; congruence.
  - intros Hjob'. change (jobs (reaper now w) !! jid = Some job') in Hjob'.
    rewrite reaper_lookup, Hjob in Hjob'.
    destruct (expired now job); [done|]. left; congruence.
Qed.

Lemma gone_world_fold isWindows evs w n t :
  ids_ok w -> n <= jobCounter w ->
  jobs w !! job_id n t = None ->
  jobs (fold_left (fun w ev => step isWindows ev w) evs w) !! job_id n t = None.
Proof.
  revert w. induction evs as [|ev evs IH]; simpl; [done|].
  intros w Hids Hn Hnone. apply IH.
  - by apply ids_ok_step.
  - pose proof (jobCounter_step isWindows ev w). lia.
  - by apply gone_world_step.
Qed.

(** A job that is registered now and later has, in between, seen only its
    own events: the later record is the earlier one after some sequence of
    job events. *)
Lemma world_fold_evolves isWindows evs w jid job job' :
  ids_ok w ->
  jobs w !! jid = Some job ->
  jobs (fold_left (fun w ev => step isWindows ev w) evs w) !! jid = Some job' ->
  exists es, job' = job_run es job.
Proof.
  revert w job. induction evs as [|ev evs IH]; simpl; intros w job Hids Hjob.
  - intros Hjob'. exists []. simpl. congruence.
  - destruct (jobs (step isWindows ev w) !! jid) as [job1|] eqn:H1.
    + intros Hlater.
      destruct (IH _ job1 (ids_ok_step isWindows ev w Hids) H1 Hlater) as (es & ->).
      destruct (world_step_evolves isWindows ev w jid job job1 Hids Hjob H1)
        as [->|(e & ->)].
      * by exists es.
      * by exists (e :: es).
    + intros Hlater. exfalso.
      destruct (proj2 Hids _ _ Hjob) as (n & t & -> & Hn).
      rewrite gone_world_fold in Hlater; [done | by apply ids_ok_step | | done].
      pose proof (jobCounter_step isWindows ev w). lia.
Qed.

Lemma run_evolves isWindows evs later jid job job' :
  jobs (run isWindows evs) !! jid = Some job ->
  jobs (run isWindows (evs ++ later)) !! jid = Some job' ->
  exists es, job' = job_run es job.
Proof.
  rewrite run_app. apply world_fold_evolves, ids_ok_run.
Qed.

Lemma keys_ok_step isWindows ev w :
  keys_ok (jobs w) -> keys_ok (jobs (step isWindows ev w)).
Proof.
  intros Hw.
  assert (Hins : forall jid job (m : gmap string Job),
            id job = jid -> keys_ok m -> keys_ok (<[jid := job]> m)).
  { intros jid job m Hid Hm jid' job'. destruct (decide (jid = jid')) as [->|Hne].
    - rewrite lookup_insert_eq. by intros [= <-].
    - rewrite lookup_insert_ne by done. apply Hm. }
  assert (Hstep : forall e job, id (job_step e job) = id job).
  { intros [] job; try done; simpl.
    - unfold kill_job, signal_if_alive. by destruct (proc job).
    - unfold on_kill_timeout, signal_if_alive. by destruct (proc job). }
  destruct ev as [clock call|jid e|jid|now]; simpl.
  - destruct call as [cmd|jid from|jid|]; simpl.
    + destruct (validateCommand cmd); simpl; [|done]. by apply Hins.
    + unfold pollJob. by destruct (jobs w !! jid).
    + unfold killJob. destruct (jobs w !! jid) as [job|] eqn:Hjob; simpl; [|done].
      apply Hins; [|done]. rewrite (Hstep Kill). by apply Hw.
    + done.
  - unfold deliver. destruct (jobs w !! jid) as [job|] eqn:Hjob; [|done].
    simpl. apply Hins; [|done]. rewrite Hstep. by apply Hw.
  - unfold cleanupJob. destruct (jobs w !! jid) as [job|] eqn:Hjob; [|done].
    destruct (negb _); simpl; [|done].
    intros jid' job'. destruct (decide (jid = jid')) as [->|Hne].
    + by rewrite lookup_delete_eq.
    + rewrite lookup_delete_ne by done. apply Hw.
  - intros jid job Hjob. apply (Hw jid).
    change (jobs (reaper now w) !! jid = Some job) in Hjob.
    rewrite reaper_lookup in Hjob.
    destruct (jobs w !! jid) as [job'|]; [|done].
    by destruct (expired now job').
Qed.

Lemma keys_ok_run isWindows evs : keys_ok (jobs (run isWindows evs)).
Proof.
  assert (H : forall w, keys_ok (jobs w) ->
            keys_ok (jobs (fold_left (fun w ev => step isWindows ev w) evs w))).
  { induction evs as [|ev evs IH]; simpl; [done|].
    intros w Hw. by apply IH, keys_ok_step. }
  apply H. intros jid job. simpl. by rewrite lookup_empty.
Qed.

Lemma fixed_fields_run es job :
  id (job_run es job) = id job /\
  command (job_run es job) = command job /\
  startTime (job_run es job) = startTime job.
Proof.
  revert job. induction es as [|e es IH]; intros job; [done|].
  rewrite job_run_cons.
  destruct (IH (job_step e job)) as (-> & -> & ->).
  destruct e; try done; simpl.
  - unfold kill_job, signal_if_alive. by destruct (proc job).
  - unfold on_kill_timeout, signal_if_alive. by destruct (proc job).
Qed.

(** X5: a job is registered under the id stored in its record, and its id,
    command and start time are the same in every later state of the event
    loop in which it is registered. *)
Theorem job_identity_fixed (isWindows : bool) (evs later : list Event)
    (jid : string) (job job' : Job) :
  jobs (run isWindows evs) !! jid = Some job ->
  jobs (run isWindows (evs ++ later)) !! jid = Some job' ->
  id job = jid /\
  id job' = id job /\
  command job' = command job /\
  startTime job' = startTime job.
Proof.
  intros Hjob Hjob'.
  split; [by apply (keys_ok_run isWindows evs)|].
  destruct (run_evolves isWindows evs later jid job job' Hjob Hjob') as (es & ->).
  apply fixed_fields_run.
Qed.

Lemma job_identity_fixed_witness :
  exists job',
    jobs (run false (evs_killed ++ evs_later)) !! sample_id = Some job' /\
    id job' = sample_id /\ command job' = "ls -la" /\ startTime job' = 1000.
Proof.
  pose (job := job_run [StdoutData 1005 abc_lines; Kill]
                       (new_job false sample_id 1000 1000 "ls -la")).
  pose (job' := job_run [Close None; StderrData 1010 "late"] job).
  assert (Hjob : jobs (run false evs_killed) !! sample_id = Some job)
    by (vm_compute; reflexivity).
  assert (Hjob' : jobs (run false (evs_killed ++ evs_later)) !! sample_id = Some job')
    by (vm_compute; reflexivity).
  destruct (job_identity_fixed false evs_killed evs_later sample_id job job' Hjob Hjob')
    as (_ & Hid & Hcmd & Hstart).
  exists job'. split; [exact Hjob'|].
  split; [by rewrite Hid|]. split; [by rewrite Hcmd | by rewrite Hstart].
Defined.

Lemma append_nil_r (s : string) : s +:+ "" = s.
Proof.
  induction s as [|c s IH]; [done|].
  change (String c (s +:+ "") = String c s). by f_equal.
Qed.

Lemma append_assoc (s1 s2 s3 : string) : (s1 +:+ s2) +:+ s3 = s1 +:+ (s2 +:+ s3).
Proof.
  induction s1 as [|c s1 IH]; [done|].
  change (String c ((s1 +:+ s2) +:+ s3) = String c (s1 +:+ (s2 +:+ s3))). by f_equal.
Qed.

Lemma buffers_grow_step e job :
  exists out err,
    stdout (job_step e job) = stdout job +:+ out /\
    stderr (job_step e job) = stderr job +:+ err.
Proof.
  destruct e; simpl.
  - exists text, "". by rewrite append_nil_r.
  - exists "", text. by rewrite append_nil_r.
  - exists "", "". by rewrite !append_nil_r.
  - exists "", (nl +:+ "Process error: " +:+ message). by rewrite append_nil_r.
  - exists "", "". rewrite !append_nil_r. unfold kill_job, signal_if_alive.
    by destruct (proc job).
  - exists "", "". rewrite !append_nil_r. unfold on_kill_timeout, signal_if_alive.
    by destruct (proc job).
Qed.

Lemma buffers_grow_run es job :
  exists out err,
    stdout (job_run es job) = stdout job +:+ out /\
    stderr (job_run es job) = stderr job +:+ err.
Proof.
  revert job. induction es as [|e es IH]; intros job.
  - exists "", "". by rewrite !append_nil_r.
  - rewrite job_run_cons.
    destruct (IH (job_step e job)) as (out2 & err2 & -> & ->).
    destruct (buffers_grow_step e job) as (out1 & err1 & -> & ->).
    exists (out1 +:+ out2), (err1 +:+ err2). by rewrite !append_assoc.
Qed.

Lemma count_LF_nonneg s : 0 <= count_LF s.
Proof.
  induction s as [|c s IH]; simpl; [lia|]. destruct (Ascii.eqb c LF); lia.
Qed.

(** X6: the buffers of a registered job only grow: in every later state in
    which the job is registered, stdout and stderr are the earlier buffers
    with something appended, and neither [totalLines] of a poll nor the
    [outputLines] counter has gone down. *)
Theorem buffers_append_only (isWindows : bool) (evs later : list Event)
    (jid : string) (job job' : Job) (t1 t2 t1' t2' from : Z) :
  jobs (run isWindows evs) !! jid = Some job ->
  jobs (run isWindows (evs ++ later)) !! jid = Some job' ->
  (exists out err,
     stdout job' = stdout job +:+ out /\ stderr job' = stderr job +:+ err) /\
  totalLines (poll_view t1 t2 from job) <= totalLines (poll_view t1' t2' from job') /\
  outputLines job <= outputLines job'.
Proof.
  intros Hjob Hjob'.
  destruct (run_evolves isWindows evs later jid job job' Hjob Hjob') as (es & E).
  destruct (buffers_grow_run es job) as (out & err & Hout & Herr).
  rewrite <- E in Hout, Herr.
  assert (Hok : lines_ok job)
    by apply (all_jobs_run lines_ok lines_ok_new lines_ok_step isWindows evs jid job Hjob).
  assert (Hok' : lines_ok job')
    by apply (all_jobs_run lines_ok lines_ok_new lines_ok_step isWindows _ jid job' Hjob').
  unfold lines_ok in *.
  pose proof (count_LF_nonneg out).
  split; [by exists out, err|].
  simpl. rewrite !split_length, Hok, Hok', Hout, count_LF_app. lia.
Qed.

Lemma buffers_append_only_witness :
  exists job job',
    jobs (run false evs_killed) !! sample_id = Some job /\
    jobs (run false (evs_killed ++ evs_later)) !! sample_id = Some job' /\
    outputLines job <= outputLines job' /\
    exists err, stderr job' = stderr job +:+ err.
Proof.
  pose (job := job_run [StdoutData 1005 abc_lines; Kill]
                       (new_job false sample_id 1000 1000 "ls -la")).
  pose (job' := job_run [Close None; StderrData 1010 "late"] job).
  assert (Hjob : jobs (run false evs_killed) !! sample_id = Some job)
    by (vm_compute; reflexivity).
  assert (Hjob' : jobs (run false (evs_killed ++ evs_later)) !! sample_id = Some job')
    by (vm_compute; reflexivity).
  destruct (buffers_append_only false evs_killed evs_later sample_id job job'
              0 0 0 0 0 Hjob Hjob') as ((out & err & _ & Herr) & _ & Hlines).
  exists job, job'. split; [exact Hjob|]. split; [exact Hjob'|].
  split; [exact Hlines|]. by exists err.
Defined.

(** ** What the registry keeps and what it hands out *)

(** X7: no event of the loop removes a running job: whatever happens next,
    a request, a callback, a cleanup or a sweep of the reaper at any clock
    reading, a job that is running stays registered. *)
Theorem running_job_kept (isWindows : bool) (ev : Event) (w : World)
    (jid : string) (job : Job) :
  jobs w !! jid = Some job ->
  status job = running ->
  is_Some (jobs (step isWindows ev w) !! jid).
Proof.
  intros Hjob Hrun. destruct ev as [clock call|jid0 e|jid0|now]; simpl.
  - destruct call as [cmd|jid0 from|jid0|]; simpl.
    + destruct (validateCommand cmd); simpl; [|by rewrite Hjob].
      destruct (decide (job_id (jobCounter w + 1) (clock 0%nat) = jid)) as [->|Hne].
      * rewrite lookup_insert_eq. eauto.
      * rewrite lookup_insert_ne by done. by rewrite Hjob.
    + unfold pollJob. destruct (jobs w !! jid0); simpl; by rewrite Hjob.
    + unfold killJob. destruct (jobs w !! jid0) as [job0|] eqn:Hjob0; simpl;
        [|by rewrite Hjob].
      destruct (decide (jid0 = jid)) as [->|Hne].
      * rewrite lookup_insert_eq. eauto.
      * rewrite lookup_insert_ne by done. by rewrite Hjob.
    + by rewrite Hjob.
  - unfold deliver. destruct (jobs w !! jid0) as [job0|] eqn:Hjob0;
      [|by rewrite Hjob].
    simpl. destruct (decide (jid0 = jid)) as [->|Hne].
    + rewrite lookup_insert_eq. eauto.
    + rewrite lookup_insert_ne by done. by rewrite Hjob.
  - unfold cleanupJob. destruct (jobs w !! jid0) as [job0|] eqn:Hjob0;
      [|simpl; by rewrite Hjob].
    destruct (status_eqb (status job0) running) eqn:E; simpl; [by rewrite Hjob|].
    destruct (decide (jid0 = jid)) as [->|Hne].
    + assert (job0 = job) as -> by congruence.
      rewrite Hrun in E. discriminate.
    + rewrite lookup_delete_ne by done. by rewrite Hjob.
  - change (is_Some (jobs (reaper now w) !! jid)).
    rewrite reaper_lookup, Hjob. unfold expired. rewrite Hrun. simpl. eauto.
Qed.

Lemma running_job_kept_witness :
  is_Some (jobs (step false (Reap 99999999) w_abc) !! sample_id) /\
  is_Some (jobs (step false (Cleanup sample_id) w_abc) !! sample_id).
Proof.
  split.
  - apply (running_job_kept false (Reap 99999999) w_abc sample_id
             (job_step (StdoutData 1005 abc_lines)
                (new_job false sample_id 1000 1000 "ls -la")));
      vm_compute; reflexivity.
  - apply (running_job_kept false (Cleanup sample_id) w_abc sample_id
             (job_step (StdoutData 1005 abc_lines)
                (new_job false sample_id 1000 1000 "ls -la")));
      vm_compute; reflexivity.
Defined.

Lemma exited_ok_new isWindows jid t1 t2 cmd : exited_ok (new_job isWindows jid t1 t2 cmd).
Proof. intros [H|H]; discriminate. Qed.

Lemma exited_ok_step e job : exited_ok job -> exited_ok (job_step e job).
Proof.
  unfold exited_ok. destruct e; simpl; try done.
  - intros _ [H|H]; discriminate.
  - unfold on_kill_timeout, signal_if_alive.
    destruct (proc job) as [p|] eqn:Hp; simpl; [|by rewrite Hp].
    intros H Hs. by specialize (H Hs).
Qed.

(** X8: the process handle follows the process: in every state of the
    event loop a running job has its handle, and a job that is done or in
    error has none, so a kill request for it sends no signal and schedules
    no timer, and a pending kill timer does nothing to it. *)
Theorem handle_follows_process (isWindows : bool) (evs : list Event)
    (jid : string) (job : Job) :
  jobs (run isWindows evs) !! jid = Some job ->
  let w := run isWindows evs in
  (status job = running -> is_Some (proc job)) /\
  (status job = done \/ status job = error ->
     proc job = None /\
     timers (snd (killJob jid w)) = timers w /\
     jobs (snd (killJob jid w)) !! jid = Some (set_status killed job) /\
     jobs (deliver jid KillTimeout w) !! jid = Some job).
Proof.
  intros Hjob w.
  assert (Hrun : running_ok job)
    by apply (all_jobs_run running_ok running_ok_new running_ok_step
                isWindows evs jid job Hjob).
  assert (Hex : exited_ok job)
    by apply (all_jobs_run exited_ok exited_ok_new exited_ok_step
                isWindows evs jid job Hjob).
  split; [intros Hr; apply (Hrun Hr)|].
  intros Hs. specialize (Hex Hs). split; [exact Hex|].
  assert (Hkill : kill_job job = set_status killed job).
  { unfold kill_job, signal_if_alive. by rewrite Hex. }
  assert (Htimer : job_step KillTimeout job = job).
  { simpl. unfold on_kill_timeout, signal_if_alive. by rewrite Hex. }
  split; [|split].
  - subst w. unfold killJob. rewrite Hjob. cbn [snd timers]. by rewrite Hex.
  - rewrite <- Hkill. by apply killJob_found.
  - rewrite (deliver_lookup jid KillTimeout w job Hjob). by rewrite Htimer.
Qed.

Lemma handle_follows_process_witness :
  exists job,
    jobs w_done !! sample_id = Some job /\
    proc job = None /\
    timers (snd (killJob sample_id w_done)) = [].
Proof.
  pose (job := job_run [StdoutData 1005 abc_lines; Close (Some 0)]
                       (new_job false sample_id 1000 1000 "ls -la")).
  destruct (handle_follows_process false
              [Request sample_clock (start_command "ls -la");
               Callback sample_id (StdoutData 1005 abc_lines);
               Callback sample_id (Close (Some 0))] sample_id job)
    as (_ & Hdone).
  { vm_compute; reflexivity. }
  destruct Hdone as (Hproc & Htimers & _); [left; reflexivity|].
  exists job. split; [vm_compute; reflexivity|]. split; [exact Hproc | exact Htimers].
Defined.

(** [createJob] is [createJob_throwing] when [spawn] returns. *)
Lemma createJob_returns isWindows t_id t_start t_last cmd w :
  createJob_throwing true isWindows t_id t_start t_last cmd w
  = (Some (fst (createJob isWindows t_id t_start t_last cmd w)),
     snd (createJob isWindows t_id t_start t_last cmd w)).
Proof. reflexivity. Qed.

(** X9: [createJob] never reuses an id, whether or not [spawn] throws.  In
    a state in which every registered id was made from a counter value
    that has been used (every state of the event loop is one, and
    [createJob] keeps this in both cases), [createJob] advances the counter
    by one, and the id made from the new value is not registered.  When
    [spawn] returns, [createJob] returns this id, registers under it a
    running job with empty buffers, no exit code, a zero line counter and a
    process handle, and leaves every other record as it was, so the
    registry grows by exactly one.  When [spawn] throws, nothing is
    registered: the registry is as it was and only the counter is
    advanced. *)
Theorem submit_registers_fresh (returns isWindows : bool) (t_id t_start t_last : Z)
    (cmd : string) (w : World) :
  ids_ok w ->
  let jid := job_id (jobCounter w + 1) t_id in
  let r := createJob_throwing returns isWindows t_id t_start t_last cmd w in
  jobs w !! jid = None /\
  jobCounter (snd r) = jobCounter w + 1 /\
  timers (snd r) = timers w /\
  ids_ok (snd r) /\
  (returns = true ->
     fst r = Some jid /\
     jobs (snd r) !! jid = Some (new_job isWindows jid t_start t_last cmd) /\
     id (new_job isWindows jid t_start t_last cmd) = jid /\
     command (new_job isWindows jid t_start t_last cmd) = cmd /\
     status (new_job isWindows jid t_start t_last cmd) = running /\
     stdout (new_job isWindows jid t_start t_last cmd) = "" /\
     stderr (new_job isWindows jid t_start t_last cmd) = "" /\
     exitCode (new_job isWindows jid t_start t_last cmd) = None /\
     outputLines (new_job isWindows jid t_start t_last cmd) = 0 /\
     is_Some (proc (new_job isWindows jid t_start t_last cmd)) /\
     (forall other, other <> jid -> jobs (snd r) !! other = jobs w !! other) /\
     size (jobs (snd r)) = S (size (jobs w))) /\
  (returns = false -> fst r = None /\ jobs (snd r) = jobs w).
Proof.
  intros Hids jid r.
  assert (Hfresh : jobs w !! jid = None).
  { destruct (jobs w !! jid) as [job|] eqn:Hjob; [|done].
    by destruct (ids_ok_fresh w jid job t_id Hids Hjob). }
  split; [exact Hfresh|].
  split; [subst r; unfold createJob_throwing; by destruct returns|].
  split; [subst r; unfold createJob_throwing; by destruct returns|].
  split.
  { destruct Hids as [Hc Hreg]. subst r. unfold createJob_throwing.
    destruct returns; (split; [simpl; lia|]); simpl; intros jid' job'.
    - destruct (decide (job_id (jobCounter w + 1) t_id = jid')) as [<-|Hne].
      + intros _. eexists _, _. split; [done | lia].
      + rewrite lookup_insert_ne by done. intros H.
        destruct (Hreg _ _ H) as (n & t & -> & Hn). exists n, t. split; [done | lia].
    - intros H. destruct (Hreg _ _ H) as (n & t & -> & Hn).
      exists n, t. split; [done | lia]. }
  split.
  - intros ->. subst r. unfold createJob_throwing. cbn [fst snd jobs]. fold jid.
    split; [done|]. split; [apply lookup_insert_eq|].
    do 7 (split; [reflexivity|]).
    split; [unfold new_job, spawn; destruct isWindows; simpl; eauto|].
    split.
    + intros other Hne. apply lookup_insert_ne. congruence.
    + by apply map_size_insert_None.
  - intros ->. done.
Qed.

Lemma submit_registers_fresh_witness :
  jobs w_abc !! job_id 2 5000 = None /\
  jobCounter (snd (createJob_throwing false false 5000 5000 5000 "ls" w_abc)) = 2 /\
  jobs (snd (createJob_throwing false false 5000 5000 5000 "ls" w_abc)) = jobs w_abc /\
  size (jobs (snd (createJob_throwing true false 5000 5000 5000 "ls" w_abc))) = 2%nat.
Proof.
  assert (Hids : ids_ok w_abc).
  { apply (ids_ok_run false [Request sample_clock (start_command "ls -la");
                             Callback sample_id (StdoutData 1005 abc_lines)]). }
  destruct (submit_registers_fresh false false 5000 5000 5000 "ls" w_abc Hids)
    as (Hfresh & Hcounter & _ & _ & _ & Hthrow).
  destruct (submit_registers_fresh true false 5000 5000 5000 "ls" w_abc Hids)
    as (_ & _ & _ & _ & Hret & _).
  destruct (Hthrow eq_refl) as [_ Hjobs].
  destruct (Hret eq_refl) as (_ & _ & _ & _ & _ & _ & _ & _ & _ & _ & _ & Hsize).
  split; [exact Hfresh|]. split; [exact Hcounter|]. split; [exact Hjobs|].
  rewrite Hsize. reflexivity.
Defined.

(** X10: [killJob] for an id that is not registered returns the not-found
    error and changes nothing; for any id it leaves the records of all
    other jobs, the id counter and the size of the registry as they
    were. *)
Theorem kill_frame (jid : string) (w : World) :
  (jobs w !! jid = None -> killJob jid w = (KillError ("Job not found: " +:+ jid), w)) /\
  (forall other, other <> jid -> jobs (snd (killJob jid w)) !! other = jobs w !! other) /\
  jobCounter (snd (killJob jid w)) = jobCounter w /\
  dom (jobs (snd (killJob jid w))) = dom (jobs w).
Proof.
  unfold killJob. destruct (jobs w !! jid) as [job|] eqn:Hjob; simpl.
  - split; [done|]. split; [|split; [done|]].
    + intros other Hne. by apply lookup_insert_ne.
    + rewrite dom_insert_L. apply elem_of_dom_2 in Hjob.
      apply subseteq_union_1_L, singleton_subseteq_l, Hjob.
  - done.
Qed.

Lemma send_signals sig p : signals (send sig p) = (signals p ++ [sig])%list.
Proof. reflexivity. Qed.

(** X11: the escalation of a kill.  [killJob] for a job with a process
    handle sends SIGTERM and schedules one timer of 1000 ms; when the timer
    fires while the handle is still there, SIGKILL follows SIGTERM; when
    the process has closed in between, the timer sends nothing and leaves
    the job as the close left it. *)
Theorem kill_escalation (jid : string) (w : World) (job : Job) (p : ChildProcess)
    (code : option Z) :
  jobs w !! jid = Some job ->
  proc job = Some p ->
  let w1 := snd (killJob jid w) in
  timers w1 = (timers w ++ [(jid, 1000)])%list /\
  (proc <$> jobs w1 !! jid) = Some (Some (send SIGTERM p)) /\
  (proc <$> jobs (deliver jid KillTimeout w1) !! jid)
  = Some (Some (send SIGKILL (send SIGTERM p))) /\
  signals (send SIGKILL (send SIGTERM p)) = (signals p ++ [SIGTERM; SIGKILL])%list /\
  jobs (deliver jid KillTimeout (deliver jid (Close code) w1))
  = jobs (deliver jid (Close code) w1) /\
  (proc <$> jobs (deliver jid (Close code) w1) !! jid) = Some None.
Proof.
  intros Hjob Hp w1.
  assert (Hw1 : jobs w1 !! jid = Some (kill_job job)) by by apply killJob_found.
  assert (Hk : proc (kill_job job) = Some (send SIGTERM p)).
  { unfold kill_job, signal_if_alive. by rewrite Hp. }
  split. { subst w1. unfold killJob. rewrite Hjob. simpl. by rewrite Hp. }
  split.
  { rewrite Hw1. change (Some (proc (kill_job job)) = Some (Some (send SIGTERM p))).
    by rewrite Hk. }
  split.
  { rewrite (deliver_lookup jid KillTimeout w1 _ Hw1).
    change (Some (proc (on_kill_timeout (kill_job job)))
            = Some (Some (send SIGKILL (send SIGTERM p)))).
    unfold on_kill_timeout, signal_if_alive. by rewrite Hk. }
  split. { rewrite !send_signals, <- app_assoc. done. }
  assert (Hc : jobs (deliver jid (Close code) w1) !! jid
               = Some (on_close code (kill_job job)))
    by apply (deliver_lookup jid (Close code) w1 _ Hw1).
  split.
  - unfold deliver at 1. rewrite Hc. simpl.
    apply insert_id. exact Hc.
  - by rewrite Hc.
Qed.

Lemma kill_escalation_witness :
  timers (snd (killJob sample_id w_abc)) = [(sample_id, 1000)] /\
  (proc <$> jobs (deliver sample_id KillTimeout (snd (killJob sample_id w_abc))) !! sample_id)
  = Some (Some (send SIGKILL (send SIGTERM (spawn false "ls -la")))).
Proof.
  destruct (kill_escalation sample_id w_abc
              (job_step (StdoutData 1005 abc_lines)
                 (new_job false sample_id 1000 1000 "ls -la"))
              (spawn false "ls -la") None)
    as (Ht & _ & Hk & _); try (vm_compute; reflexivity).
  split; [exact Ht | exact Hk].
Defined.

Lemma length_append (s1 s2 : string) :
  String.length (s1 +:+ s2) = (String.length s1 + String.length s2)%nat.
Proof. induction s1 as [|c s1 IH]; [done|]. simpl. by rewrite IH. Qed.


Lemma imap_fst_summary (clock : nat -> Z) (l : list (string * Job)) :
  s_id <$> imap (fun i '(jid, job) =>
                   {| s_id := jid;
                      s_command := substring 0 100 (command job);
                      s_status := status job;
                      s_elapsedMs := clock i - startTime job;
                      s_outputLines := outputLines job |}) l
  = l.*1.
Proof.
  revert clock. induction l as [|[jid job] l IH]; intros clock; [done|].
  simpl. f_equal. apply (IH (clock ∘ S)).
Qed.


Lemma listJobs_is_summaries clock w :
  listJobs clock w = (summaries clock (map_to_list (jobs w)), w).
Proof. reflexivity. Qed.



Lemma expired_mono now now' job :
  now <= now' -> expired now job = true -> expired now' job = true.
Proof.
  intros Hle. rewrite !expired_spec. intros [Hs Hage]. split; [done | lia].
Qed.

(** X13: sweeps compose: a sweep of the reaper followed by a sweep at the
    same or a later clock reading leaves the state that the later sweep
    alone leaves; so a second sweep at the same reading changes nothing. *)
Theorem reaper_compose (now now' : Z) (w : World) :
  now <= now' ->
  reaper now' (reaper now w) = reaper now' w /\
  reaper now (reaper now w) = reaper now w.
Proof.
  assert (H : forall a b, a <= b -> reaper b (reaper a w) = reaper b w).
  { intros a b Hle.
    assert (Hjobs : jobs (reaper b (reaper a w)) = jobs (reaper b w)).
    { apply map_eq. intros jid. rewrite !reaper_lookup.
      destruct (jobs w !! jid) as [job|]; [|done].
      destruct (expired a job) eqn:Ea.
      - by rewrite (expired_mono a b job Hle Ea).
      - done. }
    unfold reaper in *. unfold with_jobs in *. simpl in *. by rewrite Hjobs. }
  intros Hle. split; apply H; lia.
Qed.

Lemma reaper_compose_witness :
  reaper 500000 (reaper 400000 w_done) = reaper 500000 w_done.
Proof. apply (reaper_compose 400000 500000 w_done). lia. Defined.

(** X14: after [cleanupJob] has removed a job, its id is unknown: a poll
    and a kill return the not-found error, a second cleanup returns the
    combined error, and none of the three changes the state. *)
Theorem cleanup_then_unknown (t1 t2 from : Z) (jid : string) (w : World) (job : Job) :
  jobs w !! jid = Some job ->
  status job <> running ->
  let w' := snd (cleanupJob jid w) in
  fst (cleanupJob jid w) = CleanupOk /\
  pollJob t1 t2 jid from w' = (PollError ("Job not found: " +:+ jid), w') /\
  killJob jid w' = (KillError ("Job not found: " +:+ jid), w') /\
  cleanupJob jid w' = (CleanupError "Job still running or not found", w') /\
  size (jobs w') = pred (size (jobs w)).
Proof.
  intros Hjob Hs w'.
  assert (Hwc : cleanupJob jid w = (CleanupOk, with_jobs (delete jid (jobs w)) w)).
  { unfold cleanupJob. rewrite Hjob.
    destruct (status_eqb (status job) running) eqn:E; [|done].
    apply status_eqb_eq in E. done. }
  assert (Hgone : jobs w' !! jid = None).
  { subst w'. rewrite Hwc. simpl. apply lookup_delete_eq. }
  split; [by rewrite Hwc|].
  unfold pollJob, killJob, cleanupJob. rewrite Hgone.
  repeat split; try done.
  subst w'. rewrite Hwc. simpl. apply map_size_delete_Some. eauto.
Qed.

Lemma cleanup_then_unknown_witness :
  fst (cleanupJob sample_id w_done) = CleanupOk /\
  fst (pollJob 2000 2000 sample_id 0 (snd (cleanupJob sample_id w_done)))
  = PollError "Job not found: job_1_1000".
Proof.
  destruct (cleanup_then_unknown 2000 2000 0 sample_id w_done
              (job_run [StdoutData 1005 abc_lines; Close (Some 0)]
                 (new_job false sample_id 1000 1000 "ls -la")))
    as (Hc & Hp & _).
  { vm_compute; reflexivity. }
  { discriminate. }
  split; [exact Hc|]. by rewrite Hp.
Defined.

(** ** More about the command guard *)

Lemma lower_space c : Js.isWhiteSpace (Js.toLowerCaseChar c) = Js.isWhiteSpace c.
Proof. destruct c as [[] [] [] [] [] [] [] []]; vm_compute; reflexivity. Qed.

Lemma lower_quote c : Js.quote (Js.toLowerCaseChar c) = Js.quote c.
Proof. destruct c as [[] [] [] [] [] [] [] []]; vm_compute; reflexivity. Qed.

Lemma lower_canonical c : Js.canonicalize (Js.toLowerCaseChar c) = Js.canonicalize c.
Proof. destruct c as [[] [] [] [] [] [] [] []]; vm_compute; reflexivity. Qed.

Lemma lower_lower_char c :
  Js.toLowerCaseChar (Js.toLowerCaseChar c) = Js.toLowerCaseChar c.
Proof. destruct c as [[] [] [] [] [] [] [] []]; vm_compute; reflexivity. Qed.

Lemma lower_ci_any x c : Js.ci x (Js.toLowerCaseChar c) = Js.ci x c.
Proof. unfold Js.ci. by rewrite lower_canonical. Qed.

Lemma lower_lower s : Js.toLowerCase (Js.toLowerCase s) = Js.toLowerCase s.
Proof.
  induction s as [|c s IH]; [done|].
  cbn [Js.toLowerCase]. by rewrite lower_lower_char, IH.
Qed.

Lemma lower_trimStart s : Js.trimStart (Js.toLowerCase s) = Js.toLowerCase (Js.trimStart s).
Proof.
  induction s as [|c s IH]; [done|].
  cbn [Js.toLowerCase Js.trimStart]. rewrite lower_space.
  by destruct (Js.isWhiteSpace c).
Qed.

Lemma lower_take_token s : take_token (Js.toLowerCase s) = Js.toLowerCase (take_token s).
Proof.
  induction s as [|c s IH]; [done|].
  cbn [Js.toLowerCase take_token]. rewrite lower_space.
  destruct (Js.isWhiteSpace c); [done|]. cbn [Js.toLowerCase]. by rewrite IH.
Qed.

Lemma lower_first_token s : first_token (Js.toLowerCase s) = Js.toLowerCase (first_token s).
Proof. unfold first_token. by rewrite lower_trimStart, lower_take_token. Qed.

Lemma lower_take_word s : take_word (Js.toLowerCase s) = Js.toLowerCase (take_word s).
Proof.
  induction s as [|c s IH]; [done|].
  cbn [Js.toLowerCase take_word]. rewrite lower_word_char.
  destruct (Js.isWordChar c); [|done]. cbn [Js.toLowerCase]. by rewrite IH.
Qed.

Lemma lower_word_at s : word_at (Js.toLowerCase s) = Js.toLowerCase <$> word_at s.
Proof.
  destruct s as [|c s]; [done|].
  cbn [Js.toLowerCase word_at]. rewrite lower_word_char.
  destruct (Js.isWordChar c); [|done]. simpl. by rewrite lower_take_word.
Qed.

Lemma lower_quoted_word_at s :
  quoted_word_at (Js.toLowerCase s) = Js.toLowerCase <$> quoted_word_at s.
Proof.
  destruct s as [|c s]; [done|].
  cbn [Js.toLowerCase quoted_word_at]. rewrite lower_quote.
  destruct (Js.quote c); [apply lower_word_at|].
  apply (lower_word_at (String c s)).
Qed.

Lemma lower_after_spaces (next : string -> option string) s :
  (forall r, next (Js.toLowerCase r) = Js.toLowerCase <$> next r) ->
  after_spaces next (Js.toLowerCase s) = Js.toLowerCase <$> after_spaces next s.
Proof.
  intros Hnext. destruct s as [|c s]; [done|].
  cbn [Js.toLowerCase after_spaces]. rewrite lower_space.
  destruct (Js.isWhiteSpace c); [|done]. by rewrite lower_trimStart, Hnext.
Qed.

Lemma lower_flag_at s : flag_at (Js.toLowerCase s) = Js.toLowerCase <$> flag_at s.
Proof.
  destruct s as [|a [|b s]]; try done.
  cbn [Js.toLowerCase flag_at]. rewrite !lower_ci_any.
  destruct (Js.ci "/" a && Js.ci "c" b); [|done].
  apply lower_after_spaces, lower_quoted_word_at.
Qed.

Lemma lower_wrapper_at s : wrapper_at (Js.toLowerCase s) = Js.toLowerCase <$> wrapper_at s.
Proof.
  destruct s as [|a [|b [|c s]]]; try done.
  cbn [Js.toLowerCase wrapper_at]. rewrite !lower_ci_any.
  destruct (Js.ci "c" a && Js.ci "m" b && Js.ci "d" c); [|done].
  apply lower_after_spaces, lower_flag_at.
Qed.

Lemma lower_wrapped_word s :
  wrapped_word (Js.toLowerCase s) = Js.toLowerCase <$> wrapped_word s.
Proof.
  induction s as [|c s IH]; [done|].
  change (Js.toLowerCase (String c s))
    with (String (Js.toLowerCaseChar c) (Js.toLowerCase s)) at 1.
  cbn [wrapped_word].
  change (String (Js.toLowerCaseChar c) (Js.toLowerCase s))
    with (Js.toLowerCase (String c s)).
  rewrite lower_wrapper_at.
  destruct (wrapper_at (String c s)); [done|]. exact IH.
Qed.

Lemma inspected_lower cmd : inspected (Js.toLowerCase cmd) = inspected cmd.
Proof.
  unfold inspected. rewrite lower_first_token, lower_lower, lower_wrapped_word.
  destruct (String.eqb _ "cmd"); [|done].
  destruct (wrapped_word cmd); simpl; [apply lower_lower | done].
Qed.

Lemma trimStart_app_spaces pre s :
  Js.trimStart pre = "" -> Js.trimStart (pre +:+ s) = Js.trimStart s.
Proof.
  induction pre as [|c pre IH]; [done|].
  change (String c pre +:+ s) with (String c (pre +:+ s)).
  cbn [Js.trimStart]. destruct (Js.isWhiteSpace c); [exact IH | discriminate].
Qed.

Lemma lower_asciiLower_char c :
  Js.toLowerCaseChar (asciiLowerChar c) = Js.toLowerCaseChar c.
Proof. destruct c as [[] [] [] [] [] [] [] []]; vm_compute; reflexivity. Qed.

Lemma lower_asciiLower s : Js.toLowerCase (asciiLower s) = Js.toLowerCase s.
Proof.
  induction s as [|c s IH]; [done|].
  cbn [asciiLower Js.toLowerCase]. by rewrite lower_asciiLower_char, IH.
Qed.

(** X15: the case of the letters A-Z, a-z and leading white space never
    change the verdict of the guard: two commands that differ only in the
    case of ASCII letters, that is, that are equal once A-Z are moved to
    a-z, get the same verdict, and so do a command and the command with
    white space put in front. *)
Theorem guard_ignores_case_and_indent :
  (forall cmd cmd',
     asciiLower cmd = asciiLower cmd' ->
     validateCommand cmd = validateCommand cmd') /\
  (forall pre cmd,
     Js.trimStart pre = "" ->
     validateCommand (pre +:+ cmd) = validateCommand cmd).
Proof.
  split.
  - intros cmd cmd' E. rewrite !validateCommand_inspected.
    rewrite <- (inspected_lower cmd), <- (inspected_lower cmd').
    by rewrite <- (lower_asciiLower cmd), <- (lower_asciiLower cmd'), E.
  - intros pre cmd Hpre. rewrite !validateCommand_inspected.
    unfold inspected, first_token.
    by rewrite (wrapped_word_trimStart (pre +:+ cmd)), (wrapped_word_trimStart cmd),
      trimStart_app_spaces.
Qed.

Lemma guard_ignores_case_and_indent_witness :
  validateCommand "   SuDo Reboot" = validateCommand "sudo reboot".
Proof.
  etrans.
  - exact (proj2 guard_ignores_case_and_indent "   " "SuDo Reboot" eq_refl).
  - apply (proj1 guard_ignores_case_and_indent). reflexivity.
Defined.

(** X16: unless the first token is cmd, nothing but the first token counts:
    two commands with the same first token get the same verdict whatever
    follows it, so a denylisted command placed after an allowed first token
    is accepted. *)
Theorem guard_first_token_only (cmd cmd' : string) :
  first_token cmd = first_token cmd' ->
  Js.toLowerCase (first_token cmd) <> "cmd" ->
  validateCommand cmd = validateCommand cmd' /\
  (validateCommand cmd = false <-> In (Js.toLowerCase (first_token cmd)) BLACKLISTED).
Proof.
  intros E Hne.
  assert (Hi : forall c, first_token c = first_token cmd ->
                         inspected c = Js.toLowerCase (first_token cmd)).
  { intros c Hc. unfold inspected. rewrite Hc.
    destruct (String.eqb _ "cmd") eqn:E1; [|done].
    apply String.eqb_eq in E1. done. }
  rewrite !validateCommand_inspected, (Hi cmd eq_refl), (Hi cmd' (eq_sym E)).
  split; [done|]. rewrite negb_false_iff. apply includes_In.
Qed.

Lemma guard_first_token_only_witness :
  validateCommand "echo hi && rm -rf /" = validateCommand "echo" /\
  validateCommand "echo hi && rm -rf /" = true.
Proof.
  destruct (guard_first_token_only "echo hi && rm -rf /" "echo") as [E _].
  { vm_compute; reflexivity. }
  { vm_compute. discriminate. }
  split; [exact E|]. rewrite E. reflexivity.
Defined.

(** ** The choice of the shell in the second version *)

Lemma first_existing_spec existsSync candidates :
  match first_existing existsSync candidates with
  | Some p =>
      exists before after,
        candidates = (before ++ p :: after)%list /\
        p <> "" /\ existsSync p = true /\
        Forall (fun q => q = "" \/ existsSync q = false) before
  | None => Forall (fun q => q = "" \/ existsSync q = false) candidates
  end.
Proof.
  induction candidates as [|q rest IH]; [by constructor|].
  cbn [first_existing].
  assert (Hskip : q = "" \/ existsSync q = false ->
    match first_existing existsSync rest with
    | Some p =>
        exists before after,
          q :: rest = (before ++ p :: after)%list /\
          p <> "" /\ existsSync p = true /\
          Forall (fun q => q = "" \/ existsSync q = false) before
    | None => Forall (fun q => q = "" \/ existsSync q = false) (q :: rest)
    end).
  { intros Hq. destruct (first_existing existsSync rest) as [p|].
    - destruct IH as (before & after & -> & Hp & Hex & Hbefore).
      exists (q :: before), after.
      split; [done|]. split; [done|]. split; [done|]. by constructor.
    - by constructor. }
  destruct (String.eqb q "") eqn:Eq; cbn [negb andb].
  - apply String.eqb_eq in Eq. apply Hskip. by left.
  - apply String.eqb_neq in Eq. destruct (existsSync q) eqn:Hq.
    + exists [], rest. split; [done|]. split; [done|]. split; [done|]. constructor.
    + apply Hskip. by right.
Qed.

(** X17: the search for Git Bash returns the first candidate path that
    exists: a path of the candidate list that is not empty and exists, with
    no existing candidate before it; it returns nothing exactly when the
    platform is not Windows or no candidate exists. *)
Theorem find_gitBash_first (isWindows : bool) (existsSync : string -> bool)
    (programFiles programFilesX86 : option string) :
  let candidates := gitBash_candidates programFiles programFilesX86 in
  match find_gitBash isWindows existsSync programFiles programFilesX86 with
  | Some p =>
      isWindows = true /\
      exists before after,
        candidates = (before ++ p :: after)%list /\
        p <> "" /\ existsSync p = true /\
        Forall (fun q => existsSync q = false) before
  | None =>
      isWindows = false \/ Forall (fun q => existsSync q = false) candidates
  end.
Proof.
  assert (Hne : Forall (fun q => q <> "") (gitBash_candidates programFiles programFilesX86)).
  { unfold gitBash_candidates. repeat constructor; try discriminate.
    - destruct programFiles as [[|c s]|]; discriminate.
    - destruct programFilesX86 as [[|c s]|]; discriminate. }
  assert (Hstrip : forall l, Forall (fun q => q <> "") l ->
            Forall (fun q => q = "" \/ existsSync q = false) l ->
            Forall (fun q => existsSync q = false) l).
  { intros l Hl. induction Hl as [|q l Hq Hl IH]; [constructor|].
    intros H. apply Forall_cons in H as [[Hq'|Hq'] H]; [done|].
    constructor; [done | by apply IH]. }
  cbv zeta. unfold find_gitBash. destruct isWindows; [|by left].
  pose proof (first_existing_spec existsSync
                (gitBash_candidates programFiles programFilesX86)) as H.
  destruct (first_existing existsSync _) as [p|].
  - split; [done|]. destruct H as (before & after & E & Hp & Hex & Hbefore).
    exists before, after.
    split; [done|]. split; [done|]. split; [done|].
    apply Hstrip; [|done]. rewrite E in Hne.
    by apply Forall_app in Hne as [Hne _].
  - right. by apply Hstrip.
Qed.

(** X18: the second version falls back to the first: off Windows, for a
    shell other than bash, and when no Git Bash was found, the process that
    [createJob] spawns and the command line that [run_command] executes
    are those of the first version; only on Windows with shell bash and a
    Git Bash path is that path used, with the flag -c.  In every case the
    command is passed whole, as the one argument after the flag. *)
Theorem shell_fallback (isWindows : bool) (gitBashPath : option string)
    (shell command : string) :
  (isWindows = false \/ shell <> "bash" \/ usable gitBashPath = None ->
     spawn_v2 isWindows gitBashPath shell command = spawn isWindows command /\
     exec_request_v2 isWindows gitBashPath shell command
     = exec_request isWindows command) /\
  (forall path,
     isWindows = true -> shell = "bash" -> usable gitBashPath = Some path ->
     spawnfile (spawn_v2 isWindows gitBashPath shell command) = path /\
     exec_request_v2 isWindows gitBashPath shell command
     = (command, {| exec_shell := Some path; exec_timeout := 60000;
                    exec_windowsHide := true |})) /\
  (exists flag, spawnargs (spawn_v2 isWindows gitBashPath shell command)
                = [flag; command]).
Proof.
  unfold spawn_v2, exec_request_v2, spawn, exec_request.
  split; [|split].
  - intros [->|[Hs|Hg]]; [done| |].
    + destruct isWindows; [|done].
      destruct (String.eqb shell "bash") eqn:E; [|done].
      apply String.eqb_eq in E. done.
    + destruct isWindows; [|done]. rewrite Hg. by destruct (String.eqb shell "bash").
  - intros path -> -> Hg. rewrite Hg. done.
  - destruct isWindows; [|by exists "-c"].
    destruct (if String.eqb shell "bash" then usable gitBashPath else None);
      [by exists "-c" | by exists "/c"].
Qed.

Lemma shell_fallback_witness :
  spawn_v2 true (find_gitBash true (fun _ => false) None None) "bash" "ls"
  = spawn true "ls".
Proof.
  apply (proj1 (shell_fallback true (find_gitBash true (fun _ => false) None None)
                  "bash" "ls")).
  right. right. reflexivity.
Defined.

(** ** run_command *)

Lemma or_text_nonempty a b : b <> "" -> or_text a b <> "".
Proof.
  intros Hb. unfold or_text. destruct a as [x|]; [|done].
  destruct (String.eqb x "") eqn:E; [done|]. by apply String.eqb_neq in E.
Qed.

(** X19: [run_command] consults the guard first: for a command the guard
    rejects, [execSync] has no part in the answer, which is the blacklisted
    text; and the text of the answer is never empty, whatever [execSync]
    returns or throws. *)
Theorem run_command_guarded (isWindows : bool) (command : string) :
  (validateCommand command = false ->
     forall execSync, run_command execSync isWindows command
                      = "Error: Command blacklisted") /\
  (forall execSync, run_command execSync isWindows command <> "").
Proof.
  split.
  - intros H execSync. unfold run_command. by rewrite H.
  - intros execSync. unfold run_command.
    destruct (negb (validateCommand command)); [discriminate|].
    destruct (exec_request isWindows command) as [line options].
    unfold run_text. destruct (execSync line options) as [out|e m].
    + by apply or_text_nonempty.
    + discriminate.
Qed.

Lemma run_command_guarded_witness :
  run_command (fun _ _ => ExecReturns "gone") true "del /q *" = "Error: Command blacklisted".
Proof.
  apply (proj1 (run_command_guarded true "del /q *")). vm_compute; reflexivity.
Defined.

Lemma escape_not_quote_first s r : escape_quotes s <> String DQ r.
Proof.
  destruct s as [|c s]; [done|]. cbn [escape_quotes].
  destruct (Ascii.eqb c DQ) eqn:E; [discriminate|].
  intros [= -> _]. by rewrite Ascii.eqb_refl in E.
Qed.

Lemma escape_quotes_inj s1 s2 : escape_quotes s1 = escape_quotes s2 -> s1 = s2.
Proof.
  revert s2. induction s1 as [|c1 s1 IH]; intros [|c2 s2]; cbn [escape_quotes].
  - done.
  - destruct (Ascii.eqb c2 DQ); discriminate.
  - destruct (Ascii.eqb c1 DQ); discriminate.
  - destruct (Ascii.eqb c1 DQ) eqn:E1, (Ascii.eqb c2 DQ) eqn:E2.
    + apply Ascii.eqb_eq in E1, E2. subst. intros [= E]. by rewrite (IH _ E).
    + intros [= <- E]. symmetry in E. by apply escape_not_quote_first in E.
    + intros [= -> E]. by apply escape_not_quote_first in E.
    + intros [= -> E]. by rewrite (IH _ E).
Qed.

(** X20: the Windows command line of [run_command] determines the command:
    escaping the double quotes is injective, it lengthens the command by
    one character for each double quote, and it leaves a command without
    double quotes as it is. *)
Theorem escape_quotes_faithful :
  (forall c1 c2, fst (exec_request true c1) = fst (exec_request true c2) -> c1 = c2) /\
  (forall c, String.length (escape_quotes c) = (String.length c + count_DQ c)%nat) /\
  (forall c, count_DQ c = 0%nat -> escape_quotes c = c).
Proof.
  split; [|split].
  - intros c1 c2. cbn [exec_request fst].
    intros E. apply escape_quotes_inj.
    assert (Happ : forall a b x, a +:+ x = b +:+ x -> a = b).
    { intros a b x Hab.
      assert (Hlen : String.length a = String.length b).
      { apply (f_equal String.length) in Hab. rewrite !length_append in Hab. lia. }
      revert b Hab Hlen. induction a as [|ca a IHa]; intros [|cb b]; try done.
      intros [= -> Hab] [= Hlen]. by rewrite (IHa b Hab Hlen). }
    injection E as E. by apply Happ in E.
  - intros c. induction c as [|x c IH]; [done|].
    cbn [escape_quotes count_DQ]. destruct (Ascii.eqb x DQ); simpl; rewrite IH; lia.
  - intros c. induction c as [|x c IH]; [done|].
    cbn [escape_quotes count_DQ]. destruct (Ascii.eqb x DQ); [done|].
    intros H. by rewrite IH.
Qed.

(** ** Requests *)

Lemma is_text_true v text : is_text v text = true <-> v = Some text.
Proof.
  destruct v as [x|]; simpl; [|split; discriminate].
  rewrite String.eqb_eq. split; congruence.
Qed.

Lemma trimEnd_empty s : Js.trimEnd s = "" -> Js.trimStart s = "".
Proof.
  induction s as [|c s IH]; [done|].
  cbn [Js.trimEnd Js.trimStart].
  destruct (Js.trimEnd s) eqn:E; [|discriminate].
  destruct (Js.isWhiteSpace c); [|discriminate]. intros _. by apply IH.
Qed.

Lemma trimStart_idem s : Js.trimStart (Js.trimStart s) = Js.trimStart s.
Proof.
  induction s as [|c s IH]; [done|].
  cbn [Js.trimStart]. destruct (Js.isWhiteSpace c) eqn:E; [done|].
  cbn [Js.trimStart]. by rewrite E.
Qed.

(** A string trims to nothing exactly when it is white space only. *)
Lemma trim_empty s : Js.trim s = "" <-> Js.trimStart s = "".
Proof.
  unfold Js.trim. split.
  - intros H. apply trimEnd_empty in H. by rewrite trimStart_idem in H.
  - by intros ->.
Qed.

Section RequestFacts.
Context {ReqId : Type}.
Variable isWindows : bool.
Variable execSync : string -> ExecOptions -> ExecOutcome.
Variable type_error_message : string.
Variable parse : string -> ParseOutcome ReqId.

Local Abbreviation tools_call' := (tools_call isWindows execSync type_error_message).
Local Abbreviation handleRequest' :=
  (handleRequest isWindows execSync type_error_message parse).
Local Abbreviation on_line' := (on_line isWindows execSync type_error_message parse).

(** What [tools_call] answers, tool by tool. *)
Lemma tools_call_cases (rid : ReqId) clock params w :
  let name := params ≫= p_name in
  let args := default no_args (params ≫= p_arguments) in
  (name = Some "start_command" /\
   match arg_command args with
   | None => tools_call' rid clock params w = (parse_error type_error_message, w)
   | Some cmd =>
       tools_call' rid clock params w
       = (Content rid (ToolText (fst (handleToolCall isWindows clock (start_command cmd) w))),
          snd (handleToolCall isWindows clock (start_command cmd) w))
   end) \/
  (name = Some "poll_command" /\
   tools_call' rid clock params w
   = (Content rid (ToolText (Polled (fst (pollJob_arg (clock 0%nat) (clock 1%nat)
                                            (arg_job_id args)
                                            (default 0 (arg_from_line args)) w)))), w)) \/
  (name = Some "kill_command" /\
   tools_call' rid clock params w
   = (Content rid (ToolText (Killed (fst (killJob_arg (arg_job_id args) w)))),
      snd (killJob_arg (arg_job_id args) w))) \/
  (name = Some "list_jobs" /\
   tools_call' rid clock params w
   = (Content rid (ToolText (Listed (fst (listJobs clock w)))), w)) \/
  (name = Some "run_command" /\
   match arg_command args with
   | None => tools_call' rid clock params w = (parse_error type_error_message, w)
   | Some cmd =>
       tools_call' rid clock params w
       = (Content rid (RunText (run_command execSync isWindows cmd)), w)
   end) \/
  ((forall n, name = Some n -> ~ In n tool_names) /\
   tools_call' rid clock params w
   = (ErrorResponse (Some rid) (-32601) ("Unknown tool: " +:+ template name), w)).
Proof.
  intros name args. unfold tools_call. fold name. fold args.
  destruct (is_text name "start_command") eqn:E1.
  { left. apply is_text_true in E1. split; [done|].
    destruct (arg_command args) as [cmd|]; [|done].
    simpl. by destruct (validateCommand cmd). }
  destruct (is_text name "poll_command") eqn:E2.
  { right; left. apply is_text_true in E2. split; [done|].
    unfold pollJob_arg. destruct (arg_job_id args) as [j|]; [|done].
    unfold pollJob. by destruct (jobs w !! j). }
  destruct (is_text name "kill_command") eqn:E3.
  { right; right; left. apply is_text_true in E3. split; [done|].
    by destruct (killJob_arg (arg_job_id args) w). }
  destruct (is_text name "list_jobs") eqn:E4.
  { right; right; right; left. apply is_text_true in E4. done. }
  destruct (is_text name "run_command") eqn:E5.
  { do 4 right; left. apply is_text_true in E5. split; [done|].
    by destruct (arg_command args). }
  do 5 right. split; [|done].
  intros n Hn [<-|[<-|[<-|[<-|[<-|[]]]]]].
  - apply is_text_true in Hn. congruence.
  - apply is_text_true in Hn. congruence.
  - apply is_text_true in Hn. congruence.
  - apply is_text_true in Hn. congruence.
  - apply is_text_true in Hn. congruence.
Qed.

(** X21: the answer to tools/list and the dispatch of tools/call agree: a
    call is answered with the error Unknown tool, code -32601, exactly when
    its tool name is none of the five names that tools/list returns; and
    that error changes nothing. *)
Theorem advertised_tools_dispatched (rid : ReqId) (clock : nat -> Z)
    (params : option Params) (w : World) :
  let name := params ≫= p_name in
  (fst (tools_call' rid clock params w)
   = ErrorResponse (Some rid) (-32601) ("Unknown tool: " +:+ template name)
   <-> forall n, name = Some n -> ~ In n tool_names) /\
  (fst (tools_call' rid clock params w)
   = ErrorResponse (Some rid) (-32601) ("Unknown tool: " +:+ template name) ->
   snd (tools_call' rid clock params w) = w).
Proof.
  intros name.
  destruct (tools_call_cases rid clock params w)
    as [[Hn H]|[[Hn H]|[[Hn H]|[[Hn H]|[[Hn H]|[Hn H]]]]]]; fold name in Hn.
  - assert (Hin : ~ forall n, name = Some n -> ~ In n tool_names).
    { intros Hno. apply (Hno _ Hn). simpl. tauto. }
    destruct (arg_command _); rewrite H; simpl; split;
      try (split; [discriminate | tauto]); discriminate.
  - assert (Hin : ~ forall n, name = Some n -> ~ In n tool_names).
    { intros Hno. apply (Hno _ Hn). simpl. tauto. }
    rewrite H; simpl. split; [split; [discriminate | tauto] | discriminate].
  - assert (Hin : ~ forall n, name = Some n -> ~ In n tool_names).
    { intros Hno. apply (Hno _ Hn). simpl. tauto. }
    rewrite H; simpl. split; [split; [discriminate | tauto] | discriminate].
  - assert (Hin : ~ forall n, name = Some n -> ~ In n tool_names).
    { intros Hno. apply (Hno _ Hn). simpl. tauto. }
    rewrite H; simpl. split; [split; [discriminate | tauto] | discriminate].
  - assert (Hin : ~ forall n, name = Some n -> ~ In n tool_names).
    { intros Hno. apply (Hno _ Hn). simpl. tauto. }
    destruct (arg_command _); rewrite H; simpl; split;
      try (split; [discriminate | tauto]); discriminate.
  - rewrite H. simpl. split; [split; done | done].
Qed.


(** X23: only two tools change the state: a line that is handled leaves
    the registry, the id counter and the timers as they were unless it
    parses to a [tools/call] request for start_command or kill_command. *)
Theorem requests_frame (clock : nat -> Z) (line : string) (w : World) :
  snd (on_line' clock line w) = w \/
  exists r params,
    parse line = Parsed r /\
    r_method r = Some "tools/call" /\
    r_params r = Some params /\
    (p_name params = Some "start_command" \/ p_name params = Some "kill_command").
Proof.
  unfold on_line. destruct (String.eqb (Js.trim line) ""); [by left|].
  unfold handleRequest. destruct (parse line) as [m|r]; [by left|].
  destruct (is_text (r_method r) "initialize"); [by left|].
  destruct (is_text (r_method r) "tools/list"); [by left|].
  destruct (is_text (r_method r) "tools/call") eqn:Em.
  2:{ destruct (is_text (r_method r) "notifications/initialized"); by left. }
  apply is_text_true in Em.
  destruct (tools_call_cases (r_id r) clock (r_params r) w)
    as [[Hn H]|[[Hn H]|[[Hn H]|[[Hn H]|[[Hn H]|[Hn H]]]]]].
  - right. destruct (r_params r) as [params|] eqn:Ep; [|discriminate].
    exists r, params. simpl in Hn. auto.
  - left. by rewrite H.
  - right. destruct (r_params r) as [params|] eqn:Ep; [|discriminate].
    exists r, params. simpl in Hn. auto.
  - left. by rewrite H.
  - left. destruct (arg_command _); by rewrite H.
  - left. by rewrite H.
Qed.

(** X25: a line of white space only is dropped before it is parsed: it
    gets no answer and changes nothing, whatever [JSON.parse] would make of
    it; any other line is handed to [handleRequest]. *)
Theorem blank_line_dropped (clock : nat -> Z) (line : string) (w : World) :
  (Js.trimStart line = "" -> on_line' clock line w = (None, w)) /\
  (Js.trimStart line <> "" -> on_line' clock line w = handleRequest' clock line w).
Proof.
  unfold on_line. destruct (String.eqb (Js.trim line) "") eqn:E.
  - apply String.eqb_eq, trim_empty in E. split; [done|]. by intros H.
  - apply String.eqb_neq in E. split; [|done].
    intros H. by apply trim_empty in H.
Qed.

End RequestFacts.

Lemma blank_line_dropped_witness :
  on_line false sample_exec "no trim" sample_parse
    sample_clock "   " w_abc = (None, w_abc).
Proof.
  apply (proj1 (blank_line_dropped false (fun _ _ => ExecReturns "") "no trim"
                  sample_parse sample_clock "   " w_abc)).
  reflexivity.
Defined.

(** ** Requests when spawn may throw *)

Section RequestThrowingFacts.
Context {ReqId : Type}.
Variable isWindows : bool.
Variable execSync : string -> ExecOptions -> ExecOutcome.
Variable type_error_message : string.
Variable parse : string -> ParseOutcome ReqId.
Variable spawn_returns : string -> bool.
Variable spawn_error_message : string.

Local Abbreviation tools_call_t :=
  (tools_call_throwing isWindows execSync type_error_message
     spawn_returns spawn_error_message).
Local Abbreviation handleRequest_t :=
  (handleRequest_throwing isWindows execSync type_error_message parse
     spawn_returns spawn_error_message).

(** When [spawn] returns for every command, the two models of the request
    layer are one. *)
Lemma tools_call_throwing_returns (rid : ReqId) clock params w :
  (forall cmd, spawn_returns cmd = true) ->
  tools_call_t rid clock params w
  = tools_call isWindows execSync type_error_message rid clock params w.
Proof.
  intros Hret. unfold tools_call_throwing, tools_call.
  destruct (is_text _ "start_command"); [|done].
  destruct (arg_command _) as [cmd|]; [|done].
  destruct (negb (validateCommand cmd)); [done|].
  by rewrite Hret.
Qed.

(** The answers of [tools_call_throwing], tool by tool. *)
Lemma tools_call_throwing_answers (rid : ReqId) clock params w :
  let name := params ≫= p_name in
  let args := default no_args (params ≫= p_arguments) in
  let out := tools_call_t rid clock params w in
  (exists p, fst out = Content rid p) \/
  (fst out = ErrorResponse (Some rid) (-32601) ("Unknown tool: " +:+ template name) /\
   snd out = w) \/
  (fst out = parse_error type_error_message /\
   snd out = w /\
   arg_command args = None /\
   (name = Some "start_command" \/ name = Some "run_command")) \/
  (exists cmd,
     fst out = parse_error spawn_error_message /\
     name = Some "start_command" /\
     arg_command args = Some cmd /\
     validateCommand cmd = true /\
     spawn_returns cmd = false /\
     jobs (snd out) = jobs w /\
     jobCounter (snd out) = jobCounter w + 1 /\
     timers (snd out) = timers w).
Proof.
  intros name args out. subst out. unfold tools_call_throwing. fold name. fold args.
  destruct (is_text name "start_command") eqn:E1.
  { apply is_text_true in E1.
    destruct (arg_command args) as [cmd|] eqn:Ec.
    - destruct (validateCommand cmd) eqn:Ev; cbn [negb].
      + unfold createJob_throwing. destruct (spawn_returns cmd) eqn:Es.
        * left. by eexists.
        * do 3 right. exists cmd. by repeat split.
      + left. by eexists.
    - right; right; left. by repeat split; auto. }
  destruct (is_text name "poll_command").
  { left. destruct (pollJob_arg _ _ _ _ _). by eexists. }
  destruct (is_text name "kill_command").
  { left. destruct (killJob_arg _ _). by eexists. }
  destruct (is_text name "list_jobs").
  { left. by eexists. }
  destruct (is_text name "run_command") eqn:E5.
  { apply is_text_true in E5.
    destruct (arg_command args) eqn:Ec.
    - left. by eexists.
    - right; right; left. by repeat split; auto. }
  right; left. done.
Qed.

(** X24: for requests that parse and are typed as the tool schemas declare
    (method, tool name, command and job id are strings or missing), every
    answer carries the id of the request, with these exceptions: the method
    notifications/initialized gets no answer; and the [catch] of
    [handleRequest] answers with code -32700 and no id in two cases of
    [tools/call]: a start_command or run_command call without a command,
    where [validateCommand] throws and the state is unchanged, and an
    accepted start_command whose [spawn] throws, where the registry and the
    timers are unchanged and the id counter is advanced by one.  Unknown
    methods and unknown tools get code -32601 under the id of the request
    and change nothing. *)
Theorem answers_carry_id (clock : nat -> Z) (req : string) (w : World)
    (r : RpcRequest ReqId) :
  parse req = Parsed r ->
  let name := r_params r ≫= p_name in
  let args := default no_args (r_params r ≫= p_arguments) in
  let out := handleRequest_t clock req w in
  match fst out with
  | None => r_method r = Some "notifications/initialized" /\ snd out = w
  | Some (InitializeResult rid) =>
      rid = r_id r /\ r_method r = Some "initialize" /\ snd out = w
  | Some (ToolsList rid tools) =>
      rid = r_id r /\ tools = tool_names /\ snd out = w
  | Some (Content rid _) => rid = r_id r /\ r_method r = Some "tools/call"
  | Some (ErrorResponse (Some rid) code _) =>
      rid = r_id r /\ code = -32601 /\ snd out = w
  | Some (ErrorResponse None code message) =>
      code = -32700 /\
      r_method r = Some "tools/call" /\
      ((message = "Parse error: " +:+ type_error_message /\
        snd out = w /\
        arg_command args = None /\
        (name = Some "start_command" \/ name = Some "run_command")) \/
       (exists cmd,
          message = "Parse error: " +:+ spawn_error_message /\
          name = Some "start_command" /\
          arg_command args = Some cmd /\
          validateCommand cmd = true /\
          spawn_returns cmd = false /\
          jobs (snd out) = jobs w /\
          jobCounter (snd out) = jobCounter w + 1 /\
          timers (snd out) = timers w))
  end.
Proof.
  intros Hp name args out. subst out. unfold handleRequest_throwing. rewrite Hp.
  destruct (is_text (r_method r) "initialize") eqn:E1.
  { apply is_text_true in E1. done. }
  destruct (is_text (r_method r) "tools/list") eqn:E2; [done|].
  destruct (is_text (r_method r) "tools/call") eqn:E3.
  2:{ destruct (is_text (r_method r) "notifications/initialized") eqn:E4; [|done].
      by apply is_text_true in E4. }
  apply is_text_true in E3.
  pose proof (tools_call_throwing_answers (r_id r) clock (r_params r) w) as H.
  cbv zeta in H. fold name in H. fold args in H.
  destruct (tools_call_t (r_id r) clock (r_params r) w) as [resp w'].
  cbn [fst snd] in *.
  destruct H as [[p ->]|[[-> ->]|[(-> & -> & Hc & Hn)|(cmd & -> & H)]]].
  - done.
  - done.
  - unfold parse_error. split; [done|]. split; [done|]. left. done.
  - unfold parse_error. split; [done|]. split; [done|]. right. by exists cmd.
Qed.

End RequestThrowingFacts.

(** The witness: a start_command for ls whose spawn throws. *)
Lemma answers_carry_id_witness :
  fst (handleRequest_throwing false sample_exec "no trim" sample_parse_start
         (fun _ => false) "spawn E2BIG" sample_clock "{}" w_abc)
  = Some (ErrorResponse None (-32700) "Parse error: spawn E2BIG") /\
  jobCounter (snd (handleRequest_throwing false sample_exec "no trim" sample_parse_start
                     (fun _ => false) "spawn E2BIG" sample_clock "{}" w_abc)) = 2.
Proof.
  pose proof (answers_carry_id false sample_exec "no trim" sample_parse_start
                (fun _ => false) "spawn E2BIG" sample_clock "{}" w_abc _ eq_refl) as H.
  cbv zeta in H.
  destruct (handleRequest_throwing _ _ _ _ _ _ _ _ _) as [resp w'] eqn:E.
  cbn [fst snd] in *.
  destruct resp as [[rid|rid tools|rid p|[rid|] code m]|];
    try (vm_compute in E; discriminate).
  destruct H as (-> & _ & [(_ & _ & Hc & _)|(cmd & -> & _ & _ & _ & _ & _ & Hcounter & _)]).
  - vm_compute in Hc. discriminate.
  - split; [reflexivity | exact Hcounter].
Defined.
